(** * MylarMail: replica placement and hinted handoff

    A shallow embedding of the replicated write path of the MylarMail
    database node ([MMDatabase], in the version of package [main], the
    one of the two versions in the sources that is valid Go): the ring
    ([getCoordinatorIndex], [GetCoordinatorList]), hint-target selection
    ([getHandoffTarget]), the replica acceptor ([ReplicaPut]), the hint
    queue helper ([removeMessage]), the coordinator ([CoordinatorPut]) and
    the handoff drainer ([runHandoffLoop]).

    Go's [int] is a 64-bit two's complement integer and is modelled as [Z]
    with the wrap-around of every addition written out ([wrap64]);
    [uint32] values are [Z] reduced modulo [2^32].  [map[int]bool] is a
    [gmap Z bool] read with Go's zero value [false] for missing keys.
    Slices are lists; an index out of range or a division by zero is a
    run-time panic. *)

From Stdlib Require Import ZArith Ascii String.
From stdpp Require Import base tactics option list gmap strings.

Local Open Scope Z_scope.

(** ** Results of possibly panicking or non-terminating code *)

Inductive Res (A : Type) : Type :=
  | Ret (a : A)      (* normal return *)
  | Panic            (* Go run-time panic *)
  | OutOfFuel.       (* the loop bound of the model was reached *)
Arguments Ret {A} a.
Arguments Panic {A}.
Arguments OutOfFuel {A}.

#[global] Instance Res_ret : MRet Res := fun _ a => Ret a.
#[global] Instance Res_bind : MBind Res := fun _ _ f m =>
  match m with
  | Ret a => f a
  | Panic => Panic
  | OutOfFuel => OutOfFuel
  end.

(** ** Machine integers *)

Definition wrap64 (z : Z) : Z := (z + 2 ^ 63) mod 2 ^ 64 - 2 ^ 63.
Definition int_add (a b : Z) : Z := wrap64 (a + b).
Definition uint32 (z : Z) : Z := z mod 2 ^ 32.

(** [slice[i]] with Go's bounds check. *)
Definition index {A : Type} (slice : list A) (i : Z) : Res A :=
  if i <? 0 then Panic
  else match slice !! Z.to_nat i with
       | Some x => Ret x
       | None => Panic
       end.

(** [len(slice)] as an [int]. *)
Definition len {A : Type} (slice : list A) : Z := Z.of_nat (length slice).

(** ** Data types *)

Definition Err : Type := string.
Definition OK : Err := "OK"%string.
Definition ErrWrongCoordinator : Err := "ErrWrongCoordinator"%string.

(** [type MessageID struct { }] has no fields. *)
Record MessageID : Type := mkMessageID { }.

Record RequestID : Type := mkRequestID {
  ClientID : Z;
  Seq : Z;
}.

Record Message : Type := mkMessage {
  id : MessageID;
  isHandoff : bool;
  handoffDestination : string;
  handoffUsername : string;
  data : string;
  collection : string;
}.

(** The fields of [MMDatabase] that the write path reads or writes (the
    mutex, the listener and the two test flags are left out). *)
Record MMDatabase : Type := mkMMDatabase {
  me : Z;
  servers : list string;
  nServers : Z;
  nReplicas : Z;
  handoffMessages : list Message;
}.

Record ReplicaPutArgs : Type := mkReplicaPutArgs {
  Username : string;
  Msg : Message;
  Handoff : bool;
}.

Record ReplicaPutReply : Type := mkReplicaPutReply {
  ReplyErr : Err;
}.

(** ** Helper functions *)

(** [hash]: 32-bit FNV-1a of the bytes of the string ([hash/fnv.New32a]). *)
Definition fnv_offset32 : Z := 2166136261.
Definition fnv_prime32 : Z := 16777619.

Definition fnv1a_step (h : Z) (b : ascii) : Z :=
  uint32 (Z.lxor h (Z.of_N (N_of_ascii b)) * fnv_prime32).

Definition hash (s : string) : Z :=
  fold_left fnv1a_step (list_ascii_of_string s) fnv_offset32.

Definition sameID (id1 id2 : RequestID) : bool :=
  (ClientID id1 =? ClientID id2) && (Seq id1 =? Seq id2).

(** ** Ring *)

(** [int(hash(username) % uint32(db.nServers))]; the remainder panics when
    the divisor is zero. *)
Definition getCoordinatorIndex (db : MMDatabase) (username : string) : Res Z :=
  let d := uint32 (nServers db) in
  if d =? 0 then Panic else Ret (hash username mod d).

(** One [for] loop of [GetCoordinatorList]: [count] iterations starting at
    index [i], each appending [db.servers[i]] to [output]. *)
Fixpoint appendServers (srv : list string) (count : nat) (i : Z)
    (output : list string) : Res (list string) :=
  match count with
  | O => Ret output
  | S count' =>
      s ← index srv i;
      appendServers srv count' (int_add i 1) (output ++ [s])
  end.

Definition GetCoordinatorList (db : MMDatabase) (username : string)
    : Res (list string) :=
  initialIndex ← getCoordinatorIndex db username;
  output ← appendServers (servers db)
             (Z.to_nat (len (servers db) - initialIndex)) initialIndex [];
  appendServers (servers db) (Z.to_nat initialIndex) 0 output.

(** ** Hint-target selection *)

(** Reading a [map[int]bool]: a missing key reads as [false]. *)
Definition marked (m : gmap Z bool) (i : Z) : bool := default false (m !! i).

(** An index that is neither replicated nor assigned (the test of the
    scan loop). *)
Definition free (replicated assigned : gmap Z bool) (j : Z) : bool :=
  negb (marked replicated j) && negb (marked assigned j).

(** Go's [a % b] on [int]: truncated remainder, panics when [b] is zero. *)
Definition int_rem (a b : Z) : Res Z :=
  if b =? 0 then Panic else Ret (Z.rem a b).

(** The range check of [getHandoffTarget] (everything up to and including
    the "Return -1 if in proper range" branches); [true] means the
    function returns [-1]. *)
Definition inProperRange (db : MMDatabase) (username : string)
    (currentIndex : Z) : Res bool :=
  firstReplica ← getCoordinatorIndex db username;
  let lastReplica := int_add firstReplica (nReplicas db) in
  if lastReplica >=? nServers db then
    lastReplica ← int_rem lastReplica (nServers db);
    Ret ((currentIndex >=? firstReplica) || (currentIndex <=? lastReplica))
  else
    Ret ((firstReplica <=? currentIndex) && (currentIndex <=? lastReplica)).

(** The trailing [for { ... }] of [getHandoffTarget], started at [i]; one
    unit of [fuel] per iteration. *)
Fixpoint scanRing (db : MMDatabase) (replicaLocations handoffTargets : gmap Z bool)
    (fuel : nat) (i : Z) : Res Z :=
  match fuel with
  | O => OutOfFuel
  | S fuel' =>
      if free replicaLocations handoffTargets i
      then Ret i
      else
        let i := int_add i 1 in
        i ← (if i >=? nServers db then int_rem i (nServers db) else Ret i);
        scanRing db replicaLocations handoffTargets fuel' i
  end.

Definition getHandoffTarget (fuel : nat) (db : MMDatabase) (username : string)
    (currentIndex : Z) (replicaLocations handoffTargets : gmap Z bool) : Res Z :=
  inRange ← inProperRange db username currentIndex;
  if inRange : bool then Ret (-1)
  else
    firstReplica ← getCoordinatorIndex db username;
    scanRing db replicaLocations handoffTargets fuel firstReplica.

(** The primary replica set in the words of the specification: index [i]
    of the ring lies in the half-open rotation [[first, first + nReplicas)],
    that is, fewer than [nReplicas] steps after [first] on the ring of
    [nServers] indices. *)
Definition inPrimarySet (db : MMDatabase) (first i : Z) : bool :=
  (0 <=? i) && (i <? nServers db) && ((i - first) mod nServers db <? nReplicas db).

(** ** Nodes and the local store *)

(** A node is its [MMDatabase] together with its Local Store. *)
Record Node : Type := mkNode {
  node_db : MMDatabase;
  node_store : list (string * Message);
}.

(** Modelled from the spec: the effect of [LocalPut], whose body in the
    sources is a [TODO] that only returns [OK].  The Local Store is the
    "opaque durable append-only map" of the specification: every call
    appends the pair (username, message) to the store of the node. *)
Definition LocalPut (n : Node) (username : string) (msg : Message) : Node * Err :=
  (mkNode (node_db n) (node_store n ++ [(username, msg)]), OK).

Definition set_isHandoff (b : bool) (m : Message) : Message :=
  mkMessage (id m) b (handoffDestination m) (handoffUsername m) (data m) (collection m).

Definition set_handoffMessages (q : list Message) (n : Node) : Node :=
  mkNode (mkMMDatabase (me (node_db n)) (servers (node_db n)) (nServers (node_db n))
            (nReplicas (node_db n)) q)
         (node_store n).

(** ** Replica acceptor *)

Definition ReplicaPut (n : Node) (args : ReplicaPutArgs) : Node * ReplicaPutReply :=
  let message := Msg args in
  let message := if Handoff args then set_isHandoff false message else message in
  let n := fst (LocalPut n (Username args) message) in
  let n := if isHandoff message
           then set_handoffMessages (handoffMessages (node_db n) ++ [message]) n
           else n in
  (n, mkReplicaPutReply OK).

(** ** Hint queue helper *)

(** [len(slice)-1] cannot wrap around: a length is never negative. *)
Definition removeMessage {A : Type} (slice : list A) (idx : Z) : Res (list A) :=
  let maxIndex := len slice - 1 in
  lastElem ← index slice maxIndex;
  elem ← index slice idx;
  let slice := <[Z.to_nat maxIndex := elem]> slice in
  let slice := <[Z.to_nat idx := lastElem]> slice in
  Ret (take (Z.to_nat maxIndex) slice).

(** ** Peer transport *)

(** What the network does with one RPC; [serveRPC] distinguishes the same
    three cases (request discarded, request processed but reply
    discarded, request served). *)
Inductive Outcome : Type := Dropped | ReplyLost | Delivered.

(** The node that listens on address [srv] ([net.Listen] on
    [servers[me]] in [StartServer]). *)
Definition listensOn (srv : string) (n : Node) : bool :=
  match index (servers (node_db n)) (me (node_db n)) with
  | Ret a => String.eqb a srv
  | _ => false
  end.

Fixpoint findNode (srv : string) (c : list Node) : option nat :=
  match c with
  | [] => None
  | n :: c' => if listensOn srv n then Some O else S <$> findNode srv c'
  end.

(** Modelled from the spec: the peer transport [call(server,
    "MMDatabase.ReplicaPut", args, reply)], which is not part of the
    sources: "request/reply to a named peer; may fail or drop".  The
    outcome [o] is chosen by the network; the result is the new cluster,
    the [ok] flag and the reply ([new(ReplicaPutReply)] when no reply
    arrives). *)
Definition call (c : list Node) (o : Outcome) (srv : string) (args : ReplicaPutArgs)
    : list Node * bool * ReplicaPutReply :=
  let noReply := mkReplicaPutReply ""%string in
  match o with
  | Dropped => (c, false, noReply)
  | _ =>
      match findNode srv c with
      | None => (c, false, noReply)
      | Some k =>
          match c !! k with
          | None => (c, false, noReply)
          | Some n =>
              let '(n', reply) := ReplicaPut n args in
              match o with
              | Delivered => (<[k := n']> c, true, reply)
              | _ => (<[k := n']> c, false, noReply)
              end
          end
      end
  end.

(** ** Coordinator *)

(** The local variables of [CoordinatorPut] together with the cluster and
    the number of RPCs issued so far. *)
Record PutState : Type := mkPutState {
  message : Message;
  totalReplicas : Z;
  replicaLocations : gmap Z bool;
  handoffTargets : gmap Z bool;
  cluster : list Node;
  calls : nat;
}.

(** "Set Hinted Handoff": the update of [message] and [handoffTargets]
    for candidate [i], given the result of [getHandoffTarget]. *)
Definition setHintedHandoff (db : MMDatabase) (username : string) (i handoffTarget : Z)
    (msg : Message) (targets : gmap Z bool) : Res (Message * gmap Z bool) :=
  if handoffTarget =? -1 then Ret (set_isHandoff false msg, targets)
  else
    dest ← index (servers db) i;
    Ret (mkMessage (id msg) true dest username (data msg) (collection msg),
         <[handoffTarget := true]> targets).

(** The body of the inner [for i, server := range ...] for one candidate
    that passed the test [!replicaLocations[i] && i != db.me]. *)
Definition sendToCandidate (fuel : nat) (net : nat → Outcome) (db : MMDatabase)
    (username : string) (i : Z) (server : string) (s : PutState) : Res PutState :=
  handoffTarget ← getHandoffTarget fuel db username i (replicaLocations s) (handoffTargets s);
  '(msg, targets) ← setHintedHandoff db username i handoffTarget (message s) (handoffTargets s);
  let args := mkReplicaPutArgs username msg false in
  let '(c, ok, reply) := call (cluster s) (net (calls s)) server args in
  if ok && String.eqb (ReplyErr reply) OK
  then Ret (mkPutState msg (int_add (totalReplicas s) 1)
              (<[i := true]> (replicaLocations s)) targets c (S (calls s)))
  else Ret (mkPutState msg (totalReplicas s) (replicaLocations s) targets c (S (calls s))).

(** The inner loop over the coordinator list, from position [i] on. *)
Fixpoint fanOut (fuel : nat) (net : nat → Outcome) (db : MMDatabase)
    (username : string) (i : Z) (list : list string) (s : PutState) : Res PutState :=
  match list with
  | [] => Ret s
  | server :: rest =>
      s ← (if negb (marked (replicaLocations s) i) && negb (i =? me db)
           then sendToCandidate fuel net db username i server s
           else Ret s);
      if totalReplicas s >=? nReplicas db then Ret s
      else fanOut fuel net db username (int_add i 1) rest s
  end.

(** The outer loop [for totalReplicas < db.nReplicas-1]; [sweeps] bounds
    the number of its iterations. *)
Fixpoint replicateLoop (fuel sweeps : nat) (net : nat → Outcome) (db : MMDatabase)
    (username : string) (s : PutState) : Res PutState :=
  match sweeps with
  | O => OutOfFuel
  | S sweeps' =>
      if totalReplicas s <? int_add (nReplicas db) (-1) then
        list ← GetCoordinatorList db username;
        s ← fanOut fuel net db username 0 list s;
        replicateLoop fuel sweeps' net db username s
      else Ret s
  end.

(** [CoordinatorPut] after its coordinator assertion: the replication
    loop, the local put on the receiving node (position [self] of the
    cluster) and [return OK]. *)
Definition replicateAndStore (fuel : nat) (net : nat → Outcome) (c : list Node)
    (self : nat) (db : MMDatabase) (username : string) (msg : Message)
    : Res (Err * list Node * nat) :=
  s ← replicateLoop fuel fuel net db username (mkPutState msg 0 ∅ ∅ c O);
  match cluster s !! self with
  | None => Panic
  | Some n =>
      let n := fst (LocalPut n username (message s)) in
      Ret (OK, <[self := n]> (cluster s), calls s)
  end.

(** [CoordinatorPut] received by the node at position [self] of the
    cluster.  Returns the error value, the cluster afterwards and the
    number of RPCs issued. *)
Definition CoordinatorPut (fuel : nat) (net : nat → Outcome) (c : list Node) (self : nat)
    (username : string) (rid : RequestID) (msg : Message) : Res (Err * list Node * nat) :=
  match c !! self with
  | None => Panic
  | Some n =>
      let db := node_db n in
      coordinator ← getCoordinatorIndex db username;
      if negb (coordinator =? me db) && negb (isHandoff msg)
      then Ret (ErrWrongCoordinator, c, O)
      else replicateAndStore fuel net c self db username msg
  end.

(** ** Start-up *)

(** The state built by [StartServer(servers, me)]. *)
Definition StartServer (srv : list string) (me : Z) : Node :=
  mkNode (mkMMDatabase me srv (len srv) 3 []) [].

Definition startCluster (srv : list string) : list Node :=
  imap (fun k _ => StartServer srv (Z.of_nat k)) srv.

(** ** A five-node cluster

    The cluster of the end-to-end scenarios: five servers, replication
    factor three, every node freshly started.  ["a"], ["dave"] and
    ["alice"] hash to the coordinator indices 0, 1 and 4. *)

Definition servers5 : list string := ["s0"; "s1"; "s2"; "s3"; "s4"]%string.

Definition hello : Message := mkMessage mkMessageID false "" "" "hello" "inbox".

(** A network that answers the k-th RPC with the k-th outcome of the
    script and drops every RPC after the script ends. *)
Definition scripted (script : list Outcome) : nat → Outcome :=
  fun k => nth k script Dropped.

(** Whether the Local Store of a node holds a copy of the message with
    the given payload (the copies differ in their handoff fields only). *)
Definition holdsMessage (payload : string) (n : Node) : bool :=
  existsb (fun entry => String.eqb (data (snd entry)) payload) (node_store n).

(** The indices, from [k] on, of the nodes that hold the message. *)
Fixpoint holdersFrom (k : nat) (payload : string) (c : list Node) : list nat :=
  match c with
  | [] => []
  | n :: c' =>
      if holdsMessage payload n then k :: holdersFrom (S k) payload c'
      else holdersFrom (S k) payload c'
  end.

Definition holders (payload : string) (c : list Node) : list nat :=
  holdersFrom O payload c.

(** ** Handoff drainer *)

(** The inner [for i, message := range db.handoffMessages] of
    [runHandoffLoop] on the node at position [self], from index [i] on;
    [snapshot] is what is left of the slice the [range] was started on.
    The pass runs without other RPCs arriving in between; [calls] counts
    the RPCs issued so far. *)
Fixpoint handoffRange (net : nat → Outcome) (self : nat) (i : Z)
    (snapshot : list Message) (c : list Node) (calls : nat) : Res (list Node * nat) :=
  match snapshot with
  | [] => Ret (c, calls)
  | message :: rest =>
      let args := mkReplicaPutArgs (handoffUsername message) message true in
      let '(c, ok, reply) := call c (net calls) (handoffDestination message) args in
      if ok && String.eqb (ReplyErr reply) OK then
        match c !! self with
        | None => Panic
        | Some n =>
            queue ← removeMessage (handoffMessages (node_db n)) i;
            Ret (<[self := set_handoffMessages queue n]> c, S calls)
        end
      else handoffRange net self (int_add i 1) rest c (S calls)
  end.

(** One iteration of the outer [for !db.dead] loop. *)
Definition handoffPass (net : nat → Outcome) (self : nat) (c : list Node) (calls : nat)
    : Res (list Node * nat) :=
  match c !! self with
  | None => Panic
  | Some n => handoffRange net self 0 (handoffMessages (node_db n)) c calls
  end.

(** [runHandoffLoop]: the loop leaves when [kill] has set [db.dead];
    [passes] is the number of iterations it makes before that. *)
Fixpoint runHandoffLoop (passes : nat) (net : nat → Outcome) (self : nat)
    (c : list Node) (calls : nat) : Res (list Node * nat) :=
  match passes with
  | O => Ret (c, calls)
  | S passes' =>
      '(c, calls) ← handoffPass net self c calls;
      runHandoffLoop passes' net self c calls
  end.

(** ** Notions used in the statements *)

(** Two node states with the same ring configuration. *)
Definition sameConfig (n n' : Node) : Prop :=
  me (node_db n') = me (node_db n) ∧
  servers (node_db n') = servers (node_db n) ∧
  nServers (node_db n') = nServers (node_db n) ∧
  nReplicas (node_db n') = nReplicas (node_db n).

(** Two copies of one message: they agree on everything but the handoff
    fields. *)
Definition sameContent (m m' : Message) : Prop :=
  id m' = id m ∧ data m' = data m ∧ collection m' = collection m.

(** Node [n'] is node [n] after some puts: the configuration is the same,
    the store has gained entries that satisfy [P] and the hint queue has
    gained hints that satisfy [Q], both at the end. *)
Definition nodeGrows (P : string * Message → Prop) (Q : Message → Prop)
    (n n' : Node) : Prop :=
  sameConfig n n' ∧
  (∃ added, node_store n' = node_store n ++ added ∧ Forall P added) ∧
  (∃ hints, handoffMessages (node_db n') = handoffMessages (node_db n) ++ hints
            ∧ Forall Q hints).

Definition clusterGrows (P : string * Message → Prop) (Q : Message → Prop)
    (c c' : list Node) : Prop :=
  Forall2 (nodeGrows P Q) c c'.

(** Cluster [c'] is cluster [c] after some puts and hint deliveries: node
    by node the configuration is the same and the store has only gained
    entries at its end (hint queues may have changed). *)
Definition storesGrow (c c' : list Node) : Prop :=
  Forall2 (fun m m' => sameConfig m m' ∧ node_store m `prefix_of` node_store m') c c'.

(** Node by node the same hint queue. *)
Definition sameQueues (c c' : list Node) : Prop :=
  Forall2 (fun m m' => handoffMessages (node_db m') = handoffMessages (node_db m)) c c'.

(** A cluster over the server list [srv]: the node at position [k] has
    [me = k] and that server list, as [StartServer] builds it. *)
Definition wfCluster (srv : list string) (c : list Node) : Prop :=
  length c = length srv ∧
  ∀ k node, c !! k = Some node →
    me (node_db node) = Z.of_nat k ∧ servers (node_db node) = srv.

(** The Local Store of the node holds a copy of [msg] under [username]. *)
Definition holdsCopy (username : string) (msg : Message) (node : Node) : Prop :=
  ∃ m, (username, m) ∈ node_store node ∧ sameContent msg m.

(** The number of RPCs among the first [k] that the network delivers with
    their reply. *)
Fixpoint delivered (net : nat → Outcome) (k : nat) : Z :=
  match k with
  | O => 0
  | S k' =>
      delivered net k' + match net k' with Delivered => 1 | _ => 0 end
  end.

(** * Properties *)

(** ** Machine integers and slices *)

Lemma wrap64_small z : - 2 ^ 63 ≤ z < 2 ^ 63 → wrap64 z = z.
Proof. intros Hz. unfold wrap64. rewrite Z.mod_small; lia. Qed.

Lemma int_add_small a b : - 2 ^ 63 ≤ a + b < 2 ^ 63 → int_add a b = a + b.
Proof. apply wrap64_small. Qed.

Lemma uint32_small z : 0 ≤ z < 2 ^ 32 → uint32 z = z.
Proof. intros Hz. unfold uint32. by rewrite Z.mod_small. Qed.

Lemma index_lookup {A} (l : list A) (n : nat) (x : A) :
  l !! n = Some x → index l (Z.of_nat n) = Ret x.
Proof.
  intros Hx. unfold index.
  destruct (Z.ltb_spec (Z.of_nat n) 0) as [?|_]; [lia|].
  by rewrite Nat2Z.id, Hx.
Qed.

Lemma index_Ret {A} (l : list A) (i : Z) (x : A) :
  index l i = Ret x ↔ 0 ≤ i ∧ l !! Z.to_nat i = Some x.
Proof.
  unfold index. destruct (Z.ltb_spec i 0) as [?|?].
  - split; [done | lia].
  - destruct (l !! Z.to_nat i) as [y|]; split; try done.
    + by intros [= ->].
    + by intros [_ [= ->]].
    + by intros [_ ?].
Qed.

(** ** Ring *)

Section Ring.
Context (db : MMDatabase) (username : string).
Hypothesis Hlen : nServers db = len (servers db).
Hypothesis Hn : 0 < nServers db < 2 ^ 32.

Lemma getCoordinatorIndex_spec :
  getCoordinatorIndex db username = Ret (hash username mod nServers db).
Proof.
  unfold getCoordinatorIndex. rewrite uint32_small by lia.
  destruct (Z.eqb_spec (nServers db) 0); [lia | done].
Qed.

Lemma coordinator_in_range : 0 ≤ hash username mod nServers db < nServers db.
Proof. apply Z.mod_pos_bound. lia. Qed.

Lemma appendServers_take_drop (count n : nat) (output : list string) :
  (n + count ≤ length (servers db))%nat →
  appendServers (servers db) count (Z.of_nat n) output
  = Ret (output ++ take count (drop n (servers db))).
Proof.
  revert n output. induction count as [|count IH]; intros n output Hle.
  - simpl. by rewrite app_nil_r.
  - destruct (lookup_lt_is_Some_2 (servers db) n) as [s Hs]; [lia|].
    simpl. rewrite (index_lookup _ _ _ Hs). simpl.
    unfold len in Hlen. rewrite int_add_small by lia.
    replace (Z.of_nat n + 1) with (Z.of_nat (S n)) by lia.
    rewrite IH by lia. rewrite (drop_S _ _ _ Hs). simpl.
    by rewrite <- app_assoc.
Qed.

Lemma GetCoordinatorList_spec :
  GetCoordinatorList db username
  = Ret (drop (Z.to_nat (hash username mod nServers db)) (servers db)
         ++ take (Z.to_nat (hash username mod nServers db)) (servers db)).
Proof.
  pose proof coordinator_in_range as Hc. unfold len in Hlen.
  unfold GetCoordinatorList. rewrite getCoordinatorIndex_spec. simpl.
  set (first := hash username mod nServers db) in *.
  rewrite <- (Z2Nat.id first) at 2 by lia.
  rewrite appendServers_take_drop by (unfold len; lia). simpl.
  rewrite (appendServers_take_drop _ 0) by lia.
  rewrite drop_0. f_equal. f_equal.
  apply take_ge. rewrite length_drop. unfold len. lia.
Qed.
End Ring.

(** C5: for a node whose [nServers] is the length of its server list (as
    [StartServer] sets it), [GetCoordinatorList] returns the rotation of
    the server list that starts at [getCoordinatorIndex username = hash
    username mod nServers]: its k-th element is
    [servers[(first + k) mod nServers]], it is a permutation of the
    [nServers] addresses, and any node with the same server list computes
    the same list. *)
Theorem GetCoordinatorList_rotation (db : MMDatabase) (username : string) :
  nServers db = len (servers db) →
  0 < nServers db < 2 ^ 32 →
  ∃ first list,
    getCoordinatorIndex db username = Ret first ∧
    first = hash username mod nServers db ∧
    GetCoordinatorList db username = Ret list ∧
    len list = nServers db ∧
    (∀ k, 0 ≤ k < nServers db →
       ∃ s, index list k = Ret s ∧
            index (servers db) ((first + k) mod nServers db) = Ret s) ∧
    list ≡ₚ servers db ∧
    (∀ db', servers db' = servers db → nServers db' = len (servers db') →
       GetCoordinatorList db' username = Ret list).
Proof.
  intros Hlen Hn.
  pose proof (coordinator_in_range db username Hn) as Hc.
  set (first := hash username mod nServers db) in *.
  exists first, (drop (Z.to_nat first) (servers db) ++ take (Z.to_nat first) (servers db)).
  assert (Hsz : length (servers db) = Z.to_nat (nServers db)).
  { unfold len in Hlen. lia. }
  split; [by apply getCoordinatorIndex_spec|].
  split; [done|].
  split; [by apply GetCoordinatorList_spec|].
  split.
  { unfold len. rewrite length_app, length_drop, length_take. lia. }
  split.
  { intros k Hk.
    destruct (Z.lt_ge_cases (first + k) (nServers db)) as [Hlt|Hge].
    - rewrite Z.mod_small by lia.
      destruct (lookup_lt_is_Some_2 (servers db) (Z.to_nat (first + k))) as [s Hs]; [lia|].
      exists s. split; apply index_Ret; (split; [lia|]); [|done].
      rewrite lookup_app_l by (rewrite length_drop; lia).
      rewrite lookup_drop. by replace (Z.to_nat first + Z.to_nat k)%nat
        with (Z.to_nat (first + k)) by lia.
    - replace ((first + k) mod nServers db) with (first + k - nServers db).
      2:{ apply Z.mod_unique with 1; lia. }
      destruct (lookup_lt_is_Some_2 (servers db)
                  (Z.to_nat (first + k - nServers db))) as [s Hs]; [lia|].
      exists s. split; apply index_Ret; (split; [lia|]); [|done].
      rewrite lookup_app_r by (rewrite length_drop; lia).
      rewrite length_drop, lookup_take_lt by lia.
      by replace (Z.to_nat k - (length (servers db) - Z.to_nat first))%nat
        with (Z.to_nat (first + k - nServers db)) by lia. }
  split.
  { rewrite Permutation_app_comm. by rewrite take_drop. }
  intros db' Hsrv Hlen'.
  assert (Hnn : nServers db' = nServers db) by congruence.
  rewrite GetCoordinatorList_spec by congruence.
  by rewrite Hsrv, Hnn.
Qed.

Lemma GetCoordinatorList_rotation_witness :
  ∃ first list,
    getCoordinatorIndex (node_db (StartServer ["s0"; "s1"; "s2"; "s3"; "s4"] 4))
      "alice" = Ret first ∧
    first = 4 ∧
    list = ["s4"; "s0"; "s1"; "s2"; "s3"]%string ∧
    GetCoordinatorList (node_db (StartServer ["s0"; "s1"; "s2"; "s3"; "s4"] 4))
      "alice" = Ret list.
Proof.
  destruct (GetCoordinatorList_rotation
              (node_db (StartServer ["s0"; "s1"; "s2"; "s3"; "s4"] 4)) "alice")
    as (first & list & H1 & H2 & H3 & _); [reflexivity | done |].
  exists first, list. vm_compute in H2. subst first.
  split; [exact H1|]. split; [reflexivity|].
  vm_compute in H3. split; [congruence | exact H3].
Defined.

(** ** Hint queue helper *)

(** The slice that [removeMessage] returns for an index within bounds. *)
Lemma removeMessage_eval {A : Type} (slice : list A) (k : Z) (x lastElem : A) :
  slice !! Z.to_nat k = Some x →
  0 ≤ k →
  slice !! Z.to_nat (len slice - 1) = Some lastElem →
  removeMessage slice k
  = Ret (take (Z.to_nat (len slice - 1))
           (<[Z.to_nat k := lastElem]> (<[Z.to_nat (len slice - 1) := x]> slice))).
Proof.
  intros Hx Hk Hlast. unfold removeMessage.
  assert (0 ≤ len slice - 1).
  { apply lookup_lt_Some in Hx. unfold len. lia. }
  pose proof (proj2 (index_Ret slice (len slice - 1) lastElem)) as ->; [|done].
  simpl. by pose proof (proj2 (index_Ret slice k x)) as ->.
Qed.

(** Swapping position [k] with the last position and dropping the last
    position leaves the list without its element at [k], up to order. *)
Lemma swap_truncate_delete {A : Type} (slice : list A) (k maxIndex : nat) (x lastElem : A) :
  S maxIndex = length slice →
  slice !! k = Some x →
  slice !! maxIndex = Some lastElem →
  take maxIndex (<[k := lastElem]> (<[maxIndex := x]> slice)) ≡ₚ delete k slice.
Proof.
  intros Hmax Hx Hlast.
  assert (k < length slice)%nat by (by apply lookup_lt_Some in Hx).
  destruct (decide (k = maxIndex)) as [->|Hne].
  - rewrite !take_insert_ge by lia.
    rewrite delete_take_drop, (drop_ge _ (S maxIndex)) by lia.
    by rewrite app_nil_r.
  - rewrite take_insert_lt, take_insert_ge by lia.
    rewrite <- (take_drop maxIndex slice) at 2.
    rewrite (drop_S _ _ _ Hlast), (drop_ge _ (S maxIndex)) by lia.
    assert (Hxk : take maxIndex slice !! k = Some x).
    { by rewrite lookup_take_lt by lia. }
    rewrite <- (take_drop_middle _ _ _ Hxk).
    remember (take k (take maxIndex slice)) as front eqn:Hfront.
    remember (drop (S k) (take maxIndex slice)) as back eqn:Hback.
    assert (Hlk : k = length front).
    { subst front. rewrite !length_take. lia. }
    rewrite Hlk, insert_app_r_alt, Nat.sub_diag by lia. simpl.
    rewrite <- app_assoc. simpl. rewrite delete_middle.
    apply Permutation_app_head, Permutation_cons_append.
Qed.

(** C9: for a non-empty slice and an index [k] within bounds,
    [removeMessage] returns a slice that is one element shorter and holds
    exactly the elements of the argument with the one at position [k]
    taken out (as a multiset). *)
Theorem removeMessage_multiset {A : Type} (slice : list A) (k : Z) :
  slice ≠ [] →
  0 ≤ k < len slice →
  ∃ result x,
    removeMessage slice k = Ret result ∧
    len result = len slice - 1 ∧
    slice !! Z.to_nat k = Some x ∧
    result ≡ₚ delete (Z.to_nat k) slice ∧
    x :: result ≡ₚ slice.
Proof.
  intros _ Hk.
  assert (Hlen : len slice = Z.of_nat (length slice)) by done.
  destruct (lookup_lt_is_Some_2 slice (Z.to_nat k)) as [x Hx]; [lia|].
  destruct (lookup_lt_is_Some_2 slice (Z.to_nat (len slice - 1)))
    as [lastElem Hlast]; [lia|].
  pose proof (swap_truncate_delete slice (Z.to_nat k) (Z.to_nat (len slice - 1))
                x lastElem ltac:(lia) Hx Hlast) as Hdel.
  eexists _, x. split; [apply (removeMessage_eval slice k x lastElem); [done | lia | done]|].
  split.
  { unfold len at 1. rewrite length_take, !length_insert. lia. }
  split; [done|]. split; [done|].
  rewrite Hdel. symmetry. by apply delete_Permutation.
Qed.

Lemma removeMessage_multiset_witness :
  ∃ result x,
    removeMessage ["m0"; "m1"; "m2"; "m3"]%string 1 = Ret result ∧
    len result = 3 ∧
    ["m0"; "m1"; "m2"; "m3"]%string !! 1%nat = Some x ∧
    result ≡ₚ ["m0"; "m2"; "m3"]%string ∧
    x :: result ≡ₚ ["m0"; "m1"; "m2"; "m3"]%string.
Proof.
  apply (removeMessage_multiset ["m0"; "m1"; "m2"; "m3"]%string 1); [done|].
  unfold len. simpl. lia.
Defined.

(** ** Replica acceptor *)

(** C6: [ReplicaPut] stores the message with its [isHandoff] flag cleared
    when [args.Handoff] is set (and otherwise unchanged), appends it to
    the hint queue exactly when the stored message still has [isHandoff]
    set, leaves the queue as it was otherwise, and always replies [OK],
    never [ErrWrongCoordinator]. *)
Theorem ReplicaPut_spec (n : Node) (args : ReplicaPutArgs) :
  ∃ n' reply stored,
    ReplicaPut n args = (n', reply) ∧
    isHandoff stored = isHandoff (Msg args) && negb (Handoff args) ∧
    (id stored, handoffDestination stored, handoffUsername stored,
     data stored, collection stored)
    = (id (Msg args), handoffDestination (Msg args), handoffUsername (Msg args),
       data (Msg args), collection (Msg args)) ∧
    node_store n' = node_store n ++ [(Username args, stored)] ∧
    (isHandoff stored = true →
       handoffMessages (node_db n') = handoffMessages (node_db n) ++ [stored]) ∧
    (isHandoff stored = false →
       handoffMessages (node_db n') = handoffMessages (node_db n)) ∧
    ReplyErr reply = OK ∧
    ReplyErr reply ≠ ErrWrongCoordinator.
Proof.
  destruct n as [db store], args as [username [mid flag dest user payload coll] ack].
  unfold ReplicaPut. simpl.
  destruct ack, flag; simpl; eexists _, _, (mkMessage _ _ _ _ _ _);
    (split; [reflexivity|]); simpl; repeat split; done.
Qed.

(** C10: a [ReplicaPut] with [args.Handoff] set leaves the hint queue of
    the receiving node unchanged, whatever the [isHandoff] flag of the
    incoming message is. *)
Theorem ReplicaPut_handoff_keeps_queue (n : Node) (args : ReplicaPutArgs) :
  Handoff args = true →
  handoffMessages (node_db (fst (ReplicaPut n args))) = handoffMessages (node_db n).
Proof.
  intros Hack. unfold ReplicaPut. rewrite Hack. simpl. reflexivity.
Qed.

Lemma ReplicaPut_handoff_keeps_queue_witness :
  handoffMessages (node_db (fst (ReplicaPut
    (StartServer ["s0"; "s1"; "s2"] 2)
    (mkReplicaPutArgs "alice" (mkMessage mkMessageID true "s2" "alice" "hello" "inbox") true))))
  = [].
Proof.
  apply (ReplicaPut_handoff_keeps_queue (StartServer ["s0"; "s1"; "s2"] 2)
           (mkReplicaPutArgs "alice"
              (mkMessage mkMessageID true "s2" "alice" "hello" "inbox") true)).
  reflexivity.
Defined.

(** ** Coordinator assertion *)

Lemma replicateAndStore_OK fuel net c self db username msg e c' k :
  replicateAndStore fuel net c self db username msg = Ret (e, c', k) → e = OK.
Proof.
  unfold replicateAndStore.
  destruct (replicateLoop _ _ _ _ _ _) as [s| |]; simpl; [|done..].
  destruct (cluster s !! self); [|done]. by intros [= <- _ _].
Qed.

(** C4: [CoordinatorPut] returns [ErrWrongCoordinator] exactly when the
    index of the receiving node differs from the coordinator index of the
    username and the message is not flagged as a handoff; in that case no
    node state changes and no RPC is issued.  A message flagged as a
    handoff, like a call at the right coordinator, goes on to the
    replication loop, whose only return value is [OK]. *)
Theorem CoordinatorPut_WrongCoordinator (fuel : nat) (net : nat → Outcome)
    (c : list Node) (self : nat) (n : Node) (username : string) (rid : RequestID)
    (msg : Message) (coordinator : Z) :
  c !! self = Some n →
  getCoordinatorIndex (node_db n) username = Ret coordinator →
  ((∃ c' k, CoordinatorPut fuel net c self username rid msg
            = Ret (ErrWrongCoordinator, c', k))
   ↔ coordinator ≠ me (node_db n) ∧ isHandoff msg = false) ∧
  (∀ c' k, CoordinatorPut fuel net c self username rid msg
           = Ret (ErrWrongCoordinator, c', k) → c' = c ∧ k = O) ∧
  (isHandoff msg = true ∨ coordinator = me (node_db n) →
     CoordinatorPut fuel net c self username rid msg
     = replicateAndStore fuel net c self (node_db n) username msg ∧
     ∀ e c' k, CoordinatorPut fuel net c self username rid msg = Ret (e, c', k) →
               e = OK).
Proof.
  intros Hself Hcoord. unfold CoordinatorPut. rewrite Hself, Hcoord. simpl.
  destruct (Z.eqb_spec coordinator (me (node_db n))) as [Heq|Hne];
    destruct (isHandoff msg) eqn:Hflag; simpl.
  1-3: split; [split; [intros (c' & k & Hr);
                       by apply replicateAndStore_OK in Hr
                      | intros [? ?]; congruence]|];
       (split; [intros c' k Hr; by apply replicateAndStore_OK in Hr|]);
       intros _; (split; [done|]); intros e c' k Hr;
       by apply replicateAndStore_OK in Hr.
  split; [split; [done | intros _; by exists c, O]|].
  split; [by intros c' k [= <- <-]|].
  intros [?|?]; congruence.
Qed.

Lemma CoordinatorPut_WrongCoordinator_witness :
  CoordinatorPut 5 (scripted []) (startCluster servers5) 2 "alice"
    (mkRequestID 7 1) hello
  = Ret (ErrWrongCoordinator, startCluster servers5, O).
Proof.
  pose proof (CoordinatorPut_WrongCoordinator 5 (scripted []) (startCluster servers5)
                2 (StartServer servers5 2) "alice" (mkRequestID 7 1) hello 4
                eq_refl eq_refl) as (Hiff & Hframe & _).
  destruct (proj2 Hiff) as (c' & k & Hr); [split; [done | reflexivity]|].
  destruct (Hframe c' k Hr) as [-> ->]. exact Hr.
Defined.

(** A put flagged as a handoff is accepted by a node that is not the
    coordinator of the username. *)
Example CoordinatorPut_handoff_bypass :
  ∃ c k, CoordinatorPut 5 (scripted [Delivered; Delivered; Delivered])
           (startCluster servers5) 2 "alice" (mkRequestID 7 1)
           (set_isHandoff true hello)
         = Ret (OK, c, k).
Proof. eexists _, _. vm_compute. reflexivity. Qed.

(** ** Hint-target selection *)

(** The least number below a bound that satisfies a boolean predicate. *)
Lemma least_witness (P : nat → bool) (k0 : nat) :
  P k0 = true → ∃ k, (k ≤ k0)%nat ∧ P k = true ∧ ∀ k', (k' < k)%nat → P k' = false.
Proof.
  intros HP.
  assert (Hscan : ∀ m, (∀ k', (k' < m)%nat → P k' = false)
                       ∨ ∃ k, (k < m)%nat ∧ P k = true
                              ∧ ∀ k', (k' < k)%nat → P k' = false).
  { induction m as [|m [Hnone|(k & Hk & HPk & Hmin)]].
    - left. intros k' Hk'. lia.
    - destruct (P m) eqn:HPm.
      + right. exists m. split; [lia | done].
      + left. intros k' Hk'. destruct (decide (k' = m)) as [->|]; [done|].
        apply Hnone. lia.
    - right. exists k. split; [lia | done]. }
  destruct (Hscan k0) as [Hnone|(k & Hk & HPk & Hmin)].
  - exists k0. split; [lia | done].
  - exists k. split; [lia | done].
Qed.

Section HintTarget.
Context (db : MMDatabase) (replicated assigned : gmap Z bool).
Hypothesis Hn : 0 < nServers db < 2 ^ 32.

(** One step of the scan from an index of the ring. *)
Lemma scanRing_step fuel i :
  0 ≤ i < nServers db →
  scanRing db replicated assigned (S fuel) i
  = if free replicated assigned i then Ret i
    else scanRing db replicated assigned fuel ((i + 1) mod nServers db).
Proof.
  intros Hi. simpl. unfold free.
  destruct (negb (marked replicated i) && negb (marked assigned i)); [done|].
  rewrite int_add_small by lia.
  destruct (Z.geb_spec (i + 1) (nServers db)) as [Hge|Hlt].
  - unfold int_rem. destruct (Z.eqb_spec (nServers db) 0); [lia|]. simpl.
    assert (i + 1 = nServers db) as -> by lia.
    by rewrite Z.rem_same, Z.mod_same by lia.
  - simpl. by rewrite Z.mod_small by lia.
Qed.

(** The scan returns the first free index in ring order. *)
Lemma scanRing_first_free (k : nat) : ∀ (fuel : nat) (i : Z),
  0 ≤ i < nServers db →
  (k < fuel)%nat →
  (∀ k' : nat, (k' < k)%nat →
     free replicated assigned ((i + Z.of_nat k') mod nServers db) = false) →
  free replicated assigned ((i + Z.of_nat k) mod nServers db) = true →
  scanRing db replicated assigned fuel i = Ret ((i + Z.of_nat k) mod nServers db).
Proof.
  induction k as [|k IH]; intros fuel i Hi Hfuel Hbefore Hfree.
  - destruct fuel as [|fuel]; [lia|]. rewrite scanRing_step by done.
    change (Z.of_nat 0) with 0 in *.
    rewrite Z.add_0_r, Z.mod_small in Hfree by lia.
    rewrite Z.add_0_r, (Z.mod_small i) by lia. by rewrite Hfree.
  - destruct fuel as [|fuel]; [lia|]. rewrite scanRing_step by done.
    pose proof (Hbefore O ltac:(lia)) as H0.
    change (Z.of_nat 0) with 0 in H0.
    rewrite Z.add_0_r, Z.mod_small in H0 by lia. rewrite H0.
    assert (Hshift : ∀ m : nat, ((i + 1) mod nServers db + Z.of_nat m) mod nServers db
                                = (i + Z.of_nat (S m)) mod nServers db).
    { intros m. rewrite Zplus_mod_idemp_l. f_equal. lia. }
    rewrite <- Hshift. apply IH.
    + apply Z.mod_pos_bound. lia.
    + lia.
    + intros k' Hk'. rewrite Hshift. apply Hbefore. lia.
    + by rewrite Hshift.
Qed.

(** Without a free index on the ring the scan never returns. *)
Lemma scanRing_no_free fuel : ∀ i,
  0 ≤ i < nServers db →
  (∀ j, 0 ≤ j < nServers db → free replicated assigned j = false) →
  scanRing db replicated assigned fuel i = OutOfFuel.
Proof.
  induction fuel as [|fuel IH]; intros i Hi Hnone; [done|].
  rewrite scanRing_step, (Hnone i) by done.
  apply IH; [|done]. apply Z.mod_pos_bound. lia.
Qed.

(** The range check never panics, and for [0 ≤ nReplicas ≤ nServers] it
    accepts the closed rotation [[first, first + nReplicas]]: the
    candidates at most [nReplicas] steps after the coordinator. *)
Lemma inProperRange_closed_rotation username i :
  0 ≤ nReplicas db ≤ nServers db →
  0 ≤ i < nServers db →
  inProperRange db username i
  = Ret ((i - hash username mod nServers db) mod nServers db <=? nReplicas db).
Proof.
  intros Hr Hi. unfold inProperRange.
  rewrite getCoordinatorIndex_spec by done. simpl.
  pose proof (coordinator_in_range db username Hn) as Hc.
  set (first := hash username mod nServers db) in *.
  rewrite int_add_small by lia.
  destruct (Z.geb_spec (first + nReplicas db) (nServers db)) as [Hge|Hlt].
  - unfold int_rem. destruct (Z.eqb_spec (nServers db) 0); [lia|]. simpl.
    assert (Hrem : Z.rem (first + nReplicas db) (nServers db)
                   = first + nReplicas db - nServers db).
    { rewrite Z.rem_mod_nonneg by lia. symmetry. apply Z.mod_unique with 1; lia. }
    rewrite Hrem. f_equal.
    destruct (Z.le_gt_cases first i) as [Hle|Hgt].
    + rewrite Z.mod_small by lia.
      destruct (Z.geb_spec i first); [|lia]. simpl.
      symmetry. apply Z.leb_le. lia.
    + assert ((i - first) mod nServers db = i - first + nServers db) as ->.
      { symmetry. apply Z.mod_unique with (-1); lia. }
      destruct (Z.geb_spec i first); [lia|]. simpl.
      destruct (Z.leb_spec i (first + nReplicas db - nServers db));
        symmetry; [apply Z.leb_le | apply Z.leb_gt]; lia.
  - simpl. f_equal.
    destruct (Z.le_gt_cases first i) as [Hle|Hgt].
    + rewrite Z.mod_small by lia.
      destruct (Z.leb_spec first i); [|lia]. simpl.
      destruct (Z.leb_spec i (first + nReplicas db));
        symmetry; [apply Z.leb_le | apply Z.leb_gt]; lia.
    + assert ((i - first) mod nServers db = i - first + nServers db) as ->.
      { symmetry. apply Z.mod_unique with (-1); lia. }
      destruct (Z.leb_spec first i); [lia|]. simpl.
      symmetry. apply Z.leb_gt. lia.
Qed.
End HintTarget.

(** When some index of the ring is neither replicated nor assigned, the
    scan of [getHandoffTarget] terminates (within [nServers] iterations)
    and returns the first such index in ring order from the coordinator
    index; [getHandoffTarget] returns that index for every candidate that
    its range check does not accept, and [-1] for the others. *)
Theorem getHandoffTarget_scan_first_free (db : MMDatabase) (username : string)
    (i : Z) (replicated assigned : gmap Z bool) (j0 : Z) :
  0 < nServers db < 2 ^ 32 →
  0 ≤ j0 < nServers db →
  marked replicated j0 = false →
  marked assigned j0 = false →
  ∃ (first : Z) (k : nat) (j : Z),
    getCoordinatorIndex db username = Ret first ∧
    (k < Z.to_nat (nServers db))%nat ∧
    j = (first + Z.of_nat k) mod nServers db ∧
    marked replicated j = false ∧
    marked assigned j = false ∧
    (∀ k' : nat, (k' < k)%nat →
       marked replicated ((first + Z.of_nat k') mod nServers db) = true ∨
       marked assigned ((first + Z.of_nat k') mod nServers db) = true) ∧
    (∀ fuel, (k < fuel)%nat →
       scanRing db replicated assigned fuel first = Ret j) ∧
    (∀ fuel, (k < fuel)%nat →
       ∃ inRange : bool,
         inProperRange db username i = Ret inRange ∧
         getHandoffTarget fuel db username i replicated assigned
         = Ret (if inRange then -1 else j)).
Proof.
  intros Hn Hj0 Hrep Hasg.
  pose proof (coordinator_in_range db username Hn) as Hc.
  pose proof (getCoordinatorIndex_spec db username Hn) as Hfirst.
  set (first := hash username mod nServers db) in *.
  set (P := fun k : nat => free replicated assigned ((first + Z.of_nat k) mod nServers db)).
  assert (HP0 : P (Z.to_nat ((j0 - first) mod nServers db)) = true).
  { unfold P. pose proof (Z.mod_pos_bound (j0 - first) (nServers db) ltac:(lia)).
    rewrite Z2Nat.id, Zplus_mod_idemp_r by lia.
    replace (first + (j0 - first)) with j0 by lia.
    rewrite Z.mod_small by lia. unfold free. by rewrite Hrep, Hasg. }
  destruct (least_witness P _ HP0) as (k & Hle & HPk & Hmin).
  assert (Hscan : ∀ fuel, (k < fuel)%nat →
            scanRing db replicated assigned fuel first
            = Ret ((first + Z.of_nat k) mod nServers db)).
  { intros fuel Hfuel. by apply scanRing_first_free. }
  exists first, k, ((first + Z.of_nat k) mod nServers db).
  unfold P, free in HPk. apply andb_true_iff in HPk as [Hk1 Hk2].
  apply negb_true_iff in Hk1, Hk2.
  split; [done|]. split.
  { pose proof (Z.mod_pos_bound (j0 - first) (nServers db) ltac:(lia)). lia. }
  split; [done|]. split; [done|]. split; [done|]. split.
  { intros k' Hk'. specialize (Hmin k' Hk'). unfold P, free in Hmin.
    apply andb_false_iff in Hmin as [Hm|Hm]; apply negb_false_iff in Hm; auto. }
  split; [done|].
  intros fuel Hfuel. unfold getHandoffTarget.
  assert (Hrange : ∃ b, inProperRange db username i = Ret b).
  { unfold inProperRange. rewrite Hfirst. simpl.
    destruct (_ >=? _); [|by eexists].
    unfold int_rem. destruct (Z.eqb_spec (nServers db) 0); [lia|]. by eexists. }
  destruct Hrange as [b Hb]. exists b. split; [done|].
  rewrite Hb. simpl. destruct b; [done|].
  rewrite Hfirst. simpl. by apply Hscan.
Qed.

Lemma getHandoffTarget_scan_first_free_witness :
  ∃ (first : Z) (k : nat) (j : Z),
    first = 1 ∧ k = 2%nat ∧ j = 3 ∧
    scanRing (node_db (StartServer servers5 1))
      {[2 := true]} {[1 := true]} 5 first = Ret j ∧
    getHandoffTarget 5 (node_db (StartServer servers5 1)) "dave" 0
      {[2 := true]} {[1 := true]} = Ret j.
Proof.
  destruct (getHandoffTarget_scan_first_free (node_db (StartServer servers5 1))
              "dave" 0 {[2 := true]} {[1 := true]} 0)
    as (first & k & j & Hfirst & Hk & Hj & Hr & Ha & Hmin & Hscan & Hget);
    [done | done | reflexivity | reflexivity |].
  assert (first = 1) as -> by (vm_compute in Hfirst; congruence).
  assert (k = 2%nat) as ->.
  { destruct k as [|[|[|k]]]; [| |done|].
    - subst j. vm_compute in Ha. discriminate.
    - subst j. vm_compute in Hr. discriminate.
    - destruct (Hmin 2%nat ltac:(lia)) as [Hm|Hm]; vm_compute in Hm; discriminate. }
  assert (j = 3) as -> by (subst j; reflexivity).
  exists 1, 2%nat, 3. split; [reflexivity|]. split; [reflexivity|].
  split; [reflexivity|]. split.
  - apply Hscan. lia.
  - destruct (Hget 5%nat ltac:(lia)) as (b & Hb & Hg).
    vm_compute in Hb. injection Hb as <-. exact Hg.
Defined.

(** C2 (the code departs from the claim): on five servers with three
    replicas and coordinator index 1 the primary set is {1, 2, 3}, yet
    [getHandoffTarget] returns [-1] for candidate 4.  The range check
    accepts the closed rotation, one index more than the primary set
    (see [inProperRange_closed_rotation]). *)
Theorem getHandoffTarget_range_off_by_one :
  getCoordinatorIndex (node_db (StartServer servers5 1)) "dave" = Ret 1 ∧
  inPrimarySet (node_db (StartServer servers5 1)) 1 4 = false ∧
  ∀ fuel, getHandoffTarget fuel (node_db (StartServer servers5 1)) "dave" 4 ∅ ∅
          = Ret (-1).
Proof. repeat split. Qed.

(** C8 (the code departs from the claim): on five servers with three
    replicas, for ["dave"] (coordinator index 1), candidate 4 and both
    maps empty, every condition of the claim holds: [nReplicas ≤
    nServers], the candidate is outside the primary set {1, 2, 3}, and
    index 1 is in neither map; the scan started at the coordinator index
    would return index 1 at its first iteration.  Yet [getHandoffTarget]
    does not return the first free index: the range check answers [-1]
    and the scan is never reached. *)
Theorem getHandoffTarget_scan_not_reached :
  nReplicas (node_db (StartServer servers5 1))
    ≤ nServers (node_db (StartServer servers5 1)) ∧
  getCoordinatorIndex (node_db (StartServer servers5 1)) "dave" = Ret 1 ∧
  0 ≤ 4 < nServers (node_db (StartServer servers5 1)) ∧
  inPrimarySet (node_db (StartServer servers5 1)) 1 4 = false ∧
  marked (∅ : gmap Z bool) 1 = false ∧
  (∀ fuel, scanRing (node_db (StartServer servers5 1)) ∅ ∅ (S fuel) 1 = Ret 1) ∧
  (∀ fuel, getHandoffTarget fuel (node_db (StartServer servers5 1)) "dave" 4 ∅ ∅
           = Ret (-1)) ∧
  (∀ fuel, getHandoffTarget fuel (node_db (StartServer servers5 1)) "dave" 4 ∅ ∅
           ≠ Ret 1).
Proof.
  split; [by compute|]. split; [reflexivity|]. split; [by compute|].
  split; [reflexivity|]. split; [reflexivity|]. split; [reflexivity|].
  split; [reflexivity|]. intros fuel Hget.
  assert (Hminus : getHandoffTarget fuel (node_db (StartServer servers5 1)) "dave" 4 ∅ ∅
                   = Ret (-1)) by reflexivity.
  rewrite Hminus in Hget. discriminate Hget.
Qed.

(** ** Coordinator fan-out *)

(** What "Set Hinted Handoff" does for a candidate [i] that is given a
    hint target: the flag and the username are set as expected, the
    target is marked, and the destination is the address at index [i] of
    the server list (the candidate), not the address of the target. *)
Lemma setHintedHandoff_hint (db : MMDatabase) (username : string) (i target : Z)
    (msg : Message) (targets : gmap Z bool) (dest : string) :
  target ≠ -1 →
  index (servers db) i = Ret dest →
  ∃ msg' targets',
    setHintedHandoff db username i target msg targets = Ret (msg', targets') ∧
    isHandoff msg' = true ∧
    handoffUsername msg' = username ∧
    handoffDestination msg' = dest ∧
    marked targets' target = true.
Proof.
  intros Hne Hdest. unfold setHintedHandoff.
  destruct (Z.eqb_spec target (-1)); [done|]. rewrite Hdest. simpl.
  eexists _, _. split; [reflexivity|]. simpl. repeat split.
  unfold marked. by rewrite lookup_insert_eq.
Qed.

(** C3 (the code departs from the claim): with nodes 1, 2 and 3
    unreachable, the coordinator 0 of ["a"] reaches candidate 4 with both
    maps empty, [getHandoffTarget] selects node 0 (address ["s0"]) and
    marks it, but the hint that node 4 receives names ["s4"], the
    candidate itself, as its destination. *)
Theorem CoordinatorPut_hint_destination :
  getHandoffTarget 5 (node_db (StartServer servers5 0)) "a" 4 ∅ ∅ = Ret 0 ∧
  index servers5 0 = Ret "s0"%string ∧
  index servers5 4 = Ret "s4"%string ∧
  (∃ s, sendToCandidate 5 (scripted [Dropped; Dropped; Dropped; Delivered])
          (node_db (StartServer servers5 0)) "a" 4 "s4"
          (mkPutState hello 0 ∅ ∅ (startCluster servers5) 3)
        = Ret s ∧
        handoffTargets s = {[0 := true]} ∧
        isHandoff (message s) = true ∧
        handoffUsername (message s) = "a"%string ∧
        handoffDestination (message s) = "s4"%string) ∧
  ∃ c k hint,
    CoordinatorPut 5 (scripted [Dropped; Dropped; Dropped; Delivered; Delivered])
      (startCluster servers5) 0 "a" (mkRequestID 7 1) hello
    = Ret (OK, c, k) ∧
    (handoffMessages ∘ node_db) <$> c !! 4%nat = Some [hint] ∧
    isHandoff hint = true ∧
    handoffUsername hint = "a"%string ∧
    handoffDestination hint = "s4"%string.
Proof.
  split; [reflexivity|]. split; [reflexivity|]. split; [reflexivity|]. split.
  - eexists. split; [vm_compute; reflexivity|]. simpl. repeat split.
  - eexists _, _, _. split; [vm_compute; reflexivity|]. simpl. repeat split.
Qed.

(** C7 (the code departs from the claim): after a [CoordinatorPut] on a
    freshly started cluster, the hint queue of node 4 holds a hint whose
    destination is the address node 4 itself listens on. *)
Theorem hint_queue_destination_self :
  ∃ c k n hint,
    CoordinatorPut 5 (scripted [ReplyLost; Dropped; Dropped; Delivered; Dropped; Delivered])
      (startCluster servers5) 0 "a" (mkRequestID 7 2) hello
    = Ret (OK, c, k) ∧
    c !! 4%nat = Some n ∧
    handoffMessages (node_db n) = [hint] ∧
    isHandoff hint = true ∧
    index (servers (node_db n)) (me (node_db n)) = Ret (handoffDestination hint).
Proof.
  eexists _, _, _, _. split; [vm_compute; reflexivity|].
  split; [reflexivity|]. simpl. repeat split.
Qed.

(** C1 (the code departs from the claim): coordinator 1 of ["dave"]
    reaches itself over RPC through position 0 of its coordinator list
    and node 3 through position 2; with nodes 4 and 0 unreachable it
    returns [OK] although only the two nodes 1 and 3 hold the message,
    fewer than [nReplicas = 3]. *)
Theorem CoordinatorPut_OK_two_holders :
  ∃ c k,
    CoordinatorPut 5 (scripted [Delivered; Delivered; Dropped; Dropped])
      (startCluster servers5) 1 "dave" (mkRequestID 7 3) hello
    = Ret (OK, c, k) ∧
    nReplicas (node_db (StartServer servers5 1)) = 3 ∧
    holders "hello" (startCluster servers5) = [] ∧
    holders "hello" c = [1; 3]%nat.
Proof.
  eexists _, _. split; [vm_compute; reflexivity|]. repeat split.
Qed.

(** The part of the hint-queue invariant that the code does keep: every
    queued hint has its [isHandoff] flag set, both after [ReplicaPut] and
    after a removal by the drainer. *)
Lemma ReplicaPut_queue_flagged (n : Node) (args : ReplicaPutArgs) :
  Forall (fun m => isHandoff m = true) (handoffMessages (node_db n)) →
  Forall (fun m => isHandoff m = true)
    (handoffMessages (node_db (fst (ReplicaPut n args)))).
Proof.
  intros Hq. unfold ReplicaPut. simpl.
  destruct (isHandoff (if Handoff args then _ else _)) eqn:Hflag; simpl; [|done].
  apply Forall_app. split; [done|]. by apply Forall_singleton.
Qed.

Lemma removeMessage_queue_flagged (queue result : list Message) (k : Z) :
  Forall (fun m => isHandoff m = true) queue →
  removeMessage queue k = Ret result →
  Forall (fun m => isHandoff m = true) result.
Proof.
  intros Hq Hrm. unfold removeMessage in Hrm.
  destruct (index queue (len queue - 1)) as [lastElem| |] eqn:Hlast; [|done..].
  simpl in Hrm. destruct (index queue k) as [x| |] eqn:Hx; [|done..].
  apply index_Ret in Hx as [Hk Hx]. apply index_Ret in Hlast as [Hmax Hlast].
  simpl in Hrm. injection Hrm as <-.
  assert (Hlen : len queue = Z.of_nat (length queue)) by done.
  rewrite swap_truncate_delete, delete_take_drop by (done || lia).
  apply Forall_app. split; [by apply Forall_take | by apply Forall_drop].
Qed.

(** * Further properties of the code *)

(** ** Ring: edge cases *)

Lemma appendServers_in_bounds (srv : list string) (count n : nat) (output : list string) :
  len srv < 2 ^ 63 →
  (n + count ≤ length srv)%nat →
  appendServers srv count (Z.of_nat n) output = Ret (output ++ take count (drop n srv)).
Proof.
  intros Hmax. unfold len in Hmax.
  revert n output. induction count as [|count IH]; intros n output Hle.
  - simpl. by rewrite app_nil_r.
  - destruct (lookup_lt_is_Some_2 srv n) as [s Hs]; [lia|].
    simpl. rewrite (index_lookup _ _ _ Hs). simpl.
    rewrite int_add_small by lia.
    replace (Z.of_nat n + 1) with (Z.of_nat (S n)) by lia.
    rewrite IH by lia. rewrite (drop_S _ _ _ Hs). simpl.
    by rewrite <- app_assoc.
Qed.

Lemma appendServers_out_of_bounds (srv : list string) (count n : nat)
    (output : list string) :
  len srv < 2 ^ 63 →
  (n ≤ length srv < n + count)%nat →
  appendServers srv count (Z.of_nat n) output = Panic.
Proof.
  intros Hmax. unfold len in Hmax.
  revert n output. induction count as [|count IH]; intros n output Hle; [lia|].
  simpl. destruct (decide (n = length srv)) as [->|Hne].
  - unfold index. destruct (Z.ltb_spec (Z.of_nat (length srv)) 0); [done|].
    by rewrite Nat2Z.id, lookup_ge_None_2.
  - destruct (lookup_lt_is_Some_2 srv n) as [s Hs]; [lia|].
    rewrite (index_lookup _ _ _ Hs). simpl.
    rewrite int_add_small by lia.
    replace (Z.of_nat n + 1) with (Z.of_nat (S n)) by lia.
    apply IH. lia.
Qed.

(** [GetCoordinatorList] goes by [len(db.servers)], not by [db.nServers]:
    whenever the coordinator index is at most the length of the server
    list the result is the rotation of the whole list at that index (so
    it always has [len(db.servers)] entries); when the index exceeds the
    length, the second loop runs off the end of the slice and the call
    panics. *)
Theorem GetCoordinatorList_by_length (db : MMDatabase) (username : string) (first : Z) :
  len (servers db) < 2 ^ 63 →
  getCoordinatorIndex db username = Ret first →
  GetCoordinatorList db username
  = if first <=? len (servers db)
    then Ret (drop (Z.to_nat first) (servers db) ++ take (Z.to_nat first) (servers db))
    else Panic.
Proof.
  intros Hmax Hfirst.
  assert (Hpos : 0 ≤ first).
  { unfold getCoordinatorIndex in Hfirst.
    destruct (uint32 (nServers db) =? 0) eqn:Hd; [done|].
    injection Hfirst as <-. apply Z.mod_pos_bound.
    apply Z.eqb_neq in Hd. unfold uint32 in *.
    pose proof (Z.mod_pos_bound (nServers db) (2 ^ 32) ltac:(lia)). lia. }
  unfold GetCoordinatorList. rewrite Hfirst. simpl.
  rewrite <- (Z2Nat.id first) at 2 by lia.
  unfold len in *. destruct (Z.leb_spec first (Z.of_nat (length (servers db)))) as [Hle|Hgt].
  - rewrite appendServers_in_bounds by (unfold len; lia). simpl.
    rewrite (appendServers_in_bounds _ _ 0) by (unfold len; lia).
    rewrite drop_0. f_equal. f_equal.
    apply take_ge. rewrite length_drop. lia.
  - replace (Z.to_nat (Z.of_nat (length (servers db)) - first)) with O by lia.
    simpl. apply (appendServers_out_of_bounds _ _ 0); [unfold len|]; lia.
Qed.

Lemma GetCoordinatorList_by_length_witness :
  GetCoordinatorList (mkMMDatabase 0 ["s0"; "s1"; "s2"] 5 3 []) "alice" = Panic.
Proof.
  apply (GetCoordinatorList_by_length (mkMMDatabase 0 ["s0"; "s1"; "s2"] 5 3 [])
           "alice" 4); [done | reflexivity].
Defined.

(** ** Hint-target selection: results *)

Lemma scanRing_result (db : MMDatabase) (replicated assigned : gmap Z bool)
    (fuel : nat) : ∀ i j,
  0 < nServers db < 2 ^ 32 →
  0 ≤ i < nServers db →
  scanRing db replicated assigned fuel i = Ret j →
  0 ≤ j < nServers db ∧ free replicated assigned j = true.
Proof.
  induction fuel as [|fuel IH]; intros i j Hn Hi Hscan; [done|].
  rewrite scanRing_step in Hscan by done.
  destruct (free replicated assigned i) eqn:Hfree.
  - by injection Hscan as <-.
  - apply (IH ((i + 1) mod nServers db)); [done| |done].
    apply Z.mod_pos_bound. lia.
Qed.

Lemma inProperRange_total (db : MMDatabase) (username : string) (i : Z) :
  0 < nServers db < 2 ^ 32 →
  ∃ b, inProperRange db username i = Ret b.
Proof.
  intros Hn. unfold inProperRange.
  rewrite getCoordinatorIndex_spec by done. simpl.
  destruct (_ >=? _); [|by eexists].
  unfold int_rem. destruct (Z.eqb_spec (nServers db) 0); [lia|]. by eexists.
Qed.

(** [getHandoffTarget] never hands out an index that is marked in either
    map: whatever it returns is [-1] or an index of the ring that is
    neither replicated nor assigned.  The candidate itself is not
    excluded: the result may be [currentIndex]. *)
Theorem getHandoffTarget_result (fuel : nat) (db : MMDatabase) (username : string)
    (i : Z) (replicated assigned : gmap Z bool) (j : Z) :
  0 < nServers db < 2 ^ 32 →
  getHandoffTarget fuel db username i replicated assigned = Ret j →
  j = -1 ∨
  (0 ≤ j < nServers db ∧ marked replicated j = false ∧ marked assigned j = false).
Proof.
  intros Hn Hget. unfold getHandoffTarget in Hget.
  destruct (inProperRange_total db username i Hn) as [b Hb].
  rewrite Hb in Hget. simpl in Hget. destruct b.
  - left. by injection Hget as <-.
  - right. rewrite getCoordinatorIndex_spec in Hget by done. simpl in Hget.
    apply scanRing_result in Hget as [Hj Hfree];
      [|done|by apply coordinator_in_range].
    unfold free in Hfree. apply andb_true_iff in Hfree as [H1 H2].
    apply negb_true_iff in H1, H2. done.
Qed.

Lemma getHandoffTarget_result_witness :
  0 ≤ 3 < nServers (node_db (StartServer servers5 1)) ∧
  marked ({[2 := true]} : gmap Z bool) 3 = false ∧
  marked ({[1 := true]} : gmap Z bool) 3 = false.
Proof.
  destruct (getHandoffTarget_result 5 (node_db (StartServer servers5 1)) "dave" 0
              {[2 := true]} {[1 := true]} 3) as [Hneg|Hok];
    [done | reflexivity | discriminate Hneg | exact Hok].
Defined.

(** For a replication factor within [0, nServers] the answer [-1] is
    given exactly to the candidates that lie at most [nReplicas] steps
    after the coordinator index on the ring: the [nReplicas + 1] indices
    [first, ..., first + nReplicas] (modulo [nServers]). *)
Theorem getHandoffTarget_minus_one_iff (fuel : nat) (db : MMDatabase)
    (username : string) (i : Z) (replicated assigned : gmap Z bool) :
  0 < nServers db < 2 ^ 32 →
  0 ≤ nReplicas db ≤ nServers db →
  0 ≤ i < nServers db →
  getHandoffTarget fuel db username i replicated assigned = Ret (-1)
  ↔ (i - hash username mod nServers db) mod nServers db ≤ nReplicas db.
Proof.
  intros Hn Hr Hi. unfold getHandoffTarget.
  rewrite inProperRange_closed_rotation by done. simpl.
  destruct (Z.leb_spec ((i - hash username mod nServers db) mod nServers db)
              (nReplicas db)) as [Hle|Hgt].
  - done.
  - split; [|lia]. intros Hscan.
    rewrite getCoordinatorIndex_spec in Hscan by done. simpl in Hscan.
    apply scanRing_result in Hscan as [Hj _];
      [lia | done | by apply coordinator_in_range].
Qed.

Lemma getHandoffTarget_minus_one_iff_witness :
  getHandoffTarget 5 (node_db (StartServer servers5 4)) "alice" 2 ∅ ∅ = Ret (-1).
Proof.
  apply (getHandoffTarget_minus_one_iff 5 (node_db (StartServer servers5 4))
           "alice" 2 ∅ ∅); [done | done | done |].
  vm_compute. discriminate.
Defined.

(** When every index of the ring is replicated or assigned, a candidate
    that the range check does not accept makes [getHandoffTarget] loop
    for ever: no loop bound is large enough for it to return. *)
Theorem getHandoffTarget_no_free_index (db : MMDatabase) (username : string)
    (i : Z) (replicated assigned : gmap Z bool) :
  0 < nServers db < 2 ^ 32 →
  inProperRange db username i = Ret false →
  (∀ j, 0 ≤ j < nServers db → marked replicated j || marked assigned j = true) →
  ∀ fuel, getHandoffTarget fuel db username i replicated assigned = OutOfFuel.
Proof.
  intros Hn Hrange Hall fuel. unfold getHandoffTarget.
  rewrite Hrange. simpl. rewrite getCoordinatorIndex_spec by done. simpl.
  apply scanRing_no_free; [done | by apply coordinator_in_range |].
  intros j Hj. specialize (Hall j Hj). unfold free.
  destruct (marked replicated j), (marked assigned j); done.
Qed.

Lemma getHandoffTarget_no_free_index_witness :
  getHandoffTarget 1000 (node_db (StartServer ["s0"; "s1"; "s2"; "s3"; "s4"; "s5"] 0))
    "a" 3 {[0 := true; 1 := true; 2 := true]} {[3 := true; 4 := true; 5 := true]}
  = OutOfFuel.
Proof.
  apply (getHandoffTarget_no_free_index
           (node_db (StartServer ["s0"; "s1"; "s2"; "s3"; "s4"; "s5"] 0)) "a" 3
           {[0 := true; 1 := true; 2 := true]} {[3 := true; 4 := true; 5 := true]});
    [done | reflexivity |].
  intros j Hj. change (nServers _) with 6 in Hj.
  assert (j = 0 ∨ j = 1 ∨ j = 2 ∨ j = 3 ∨ j = 4 ∨ j = 5) as Hcases by lia.
  destruct Hcases as [->|[->|[->|[->|[->| ->]]]]]; reflexivity.
Defined.

(** ** Hint queue helper: bounds and positions *)

(** [removeMessage] panics exactly when the index is out of bounds, which
    includes every call on an empty slice. *)
Theorem removeMessage_Panic_iff {A : Type} (slice : list A) (k : Z) :
  removeMessage slice k = Panic ↔ k < 0 ∨ len slice ≤ k.
Proof.
  unfold removeMessage, len. split.
  - intros Hrm.
    destruct (Z.lt_ge_cases k 0) as [?|Hk0]; [by left|].
    destruct (Z.le_gt_cases (Z.of_nat (length slice)) k) as [?|Hk]; [by right|].
    exfalso.
    destruct (lookup_lt_is_Some_2 slice (Z.to_nat k)) as [x Hx]; [lia|].
    destruct (lookup_lt_is_Some_2 slice (Z.to_nat (Z.of_nat (length slice) - 1)))
      as [lastElem Hlast]; [lia|].
    pose proof (proj2 (index_Ret slice (Z.of_nat (length slice) - 1) lastElem)) as Hi1.
    rewrite Hi1 in Hrm by (split; [lia | done]). simpl in Hrm.
    pose proof (proj2 (index_Ret slice k x)) as Hi2.
    by rewrite Hi2 in Hrm by (split; [lia | done]).
  - intros Hk.
    destruct (index slice (Z.of_nat (length slice) - 1)) as [lastElem| |] eqn:Hlast;
      [|done|].
    + simpl. unfold index. destruct (Z.ltb_spec k 0) as [?|?]; [done|].
      rewrite lookup_ge_None_2; [done | lia].
    + unfold index in Hlast. destruct (_ <? _); [done|].
      by destruct (slice !! _).
Qed.

(** The order of the queue is not kept: the result is one element
    shorter, the slice without its last position, with the former last
    element moved to position [k]; every other position keeps its
    element. *)
Theorem removeMessage_positions {A : Type} (slice : list A) (k : Z) :
  0 ≤ k < len slice →
  ∃ result lastElem,
    removeMessage slice k = Ret result ∧
    len result = len slice - 1 ∧
    slice !! Z.to_nat (len slice - 1) = Some lastElem ∧
    ∀ j : nat, (j < Z.to_nat (len slice - 1))%nat →
      result !! j = if decide (j = Z.to_nat k) then Some lastElem else slice !! j.
Proof.
  intros Hk.
  assert (Hlen : len slice = Z.of_nat (length slice)) by done.
  destruct (lookup_lt_is_Some_2 slice (Z.to_nat k)) as [x Hx]; [lia|].
  destruct (lookup_lt_is_Some_2 slice (Z.to_nat (len slice - 1)))
    as [lastElem Hlast]; [lia|].
  eexists _, lastElem.
  split; [apply (removeMessage_eval slice k x lastElem); [done | lia | done]|].
  split.
  { unfold len at 1. rewrite length_take, !length_insert. unfold len. lia. }
  split; [done|]. intros j Hj.
  rewrite lookup_take_lt by done.
  destruct (decide (j = Z.to_nat k)) as [->|Hne].
  - apply list_lookup_insert_eq. rewrite length_insert. lia.
  - rewrite !list_lookup_insert_ne by lia. done.
Qed.

Lemma removeMessage_positions_witness :
  ∃ result lastElem,
    removeMessage ["m0"; "m1"; "m2"; "m3"]%string 0 = Ret result ∧
    len result = 3 ∧
    lastElem = "m3"%string ∧
    result !! 0%nat = Some lastElem ∧
    result !! 1%nat = Some "m1"%string.
Proof.
  destruct (removeMessage_positions ["m0"; "m1"; "m2"; "m3"]%string 0)
    as (result & lastElem & Hr & Hlen & Hlast & Hpos); [done|].
  exists result, lastElem. split; [exact Hr|]. split; [exact Hlen|].
  split; [by injection Hlast as <-|].
  split.
  - apply (Hpos 0%nat). unfold len. simpl. lia.
  - apply (Hpos 1%nat). unfold len. simpl. lia.
Defined.

(** ** Request identifiers *)

(** [sameID] decides equality of request identifiers. *)
Theorem sameID_eq (id1 id2 : RequestID) : sameID id1 id2 = true ↔ id1 = id2.
Proof.
  destruct id1 as [c1 s1], id2 as [c2 s2]. unfold sameID. simpl.
  rewrite andb_true_iff, !Z.eqb_eq. split.
  - by intros [-> ->].
  - by intros [= -> ->].
Qed.

(** ** Growth of node states *)

Section Growth.
Context (P : string * Message → Prop) (Q : Message → Prop).

Lemma nodeGrows_refl n : nodeGrows P Q n n.
Proof.
  split; [done|]. split; exists []; by rewrite app_nil_r.
Qed.

Lemma nodeGrows_trans n1 n2 n3 :
  nodeGrows P Q n1 n2 → nodeGrows P Q n2 n3 → nodeGrows P Q n1 n3.
Proof.
  intros [(H1 & H2 & H3 & H4) [(a1 & Ha1 & HP1) (h1 & Hh1 & HQ1)]]
         [(H5 & H6 & H7 & H8) [(a2 & Ha2 & HP2) (h2 & Hh2 & HQ2)]].
  split; [repeat split; congruence|]. split.
  - exists (a1 ++ a2). split; [by rewrite Ha2, Ha1, app_assoc|].
    by apply Forall_app.
  - exists (h1 ++ h2). split; [by rewrite Hh2, Hh1, app_assoc|].
    by apply Forall_app.
Qed.

Lemma clusterGrows_refl c : clusterGrows P Q c c.
Proof. induction c; constructor; [apply nodeGrows_refl | done]. Qed.

Lemma clusterGrows_trans c1 c2 c3 :
  clusterGrows P Q c1 c2 → clusterGrows P Q c2 c3 → clusterGrows P Q c1 c3.
Proof.
  unfold clusterGrows. intros H12. revert c3.
  induction H12 as [|n1 n2 c1 c2 Hn H12 IH]; intros c3 H23.
  - inversion H23. constructor.
  - inversion H23 as [|? n3 ? c3' Hn' H23']; subst.
    constructor; [by eapply nodeGrows_trans | by apply IH].
Qed.

Lemma clusterGrows_insert c k n n' :
  c !! k = Some n → nodeGrows P Q n n' → clusterGrows P Q c (<[k := n']> c).
Proof.
  intros Hk Hn. rewrite <- (list_insert_id c k n Hk) at 1.
  apply Forall2_insert; [apply clusterGrows_refl | done].
Qed.

Lemma clusterGrows_lookup c c' k n :
  clusterGrows P Q c c' → c !! k = Some n →
  ∃ n', c' !! k = Some n' ∧ nodeGrows P Q n n'.
Proof. intros Hg Hk. by eapply Forall2_lookup_l. Qed.

Lemma clusterGrows_length c c' : clusterGrows P Q c c' → length c' = length c.
Proof. intros Hg. symmetry. by eapply Forall2_length. Qed.

(** A [ReplicaPut] adds the stored message to the store and, when it is
    still flagged, to the hint queue. *)
Lemma ReplicaPut_grows n args :
  let stored := if Handoff args then set_isHandoff false (Msg args) else Msg args in
  P (Username args, stored) →
  (isHandoff stored = true → Q stored) →
  nodeGrows P Q n (fst (ReplicaPut n args)).
Proof.
  intros stored HP HQ. unfold ReplicaPut. fold stored. simpl.
  destruct (isHandoff stored) eqn:Hflag; simpl.
  - split; [done|]. split.
    + exists [(Username args, stored)]. split; [done | by apply Forall_singleton].
    + exists [stored]. split; [done | apply Forall_singleton; by apply HQ].
  - split; [done|]. split.
    + exists [(Username args, stored)]. split; [done | by apply Forall_singleton].
    + exists []. by rewrite app_nil_r.
Qed.
End Growth.

(** What one RPC does to the cluster. *)
Lemma call_cases c o srv args c' ok reply :
  call c o srv args = (c', ok, reply) →
  (c' = c ∧ ok = false) ∨
  (∃ k n, findNode srv c = Some k ∧ c !! k = Some n ∧
          c' = <[k := fst (ReplicaPut n args)]> c ∧
          o ≠ Dropped ∧ (ok = true ↔ o = Delivered) ∧
          (ok = true → ReplyErr reply = OK)).
Proof.
  unfold call. destruct o.
  - intros [= <- <- <-]. by left.
  - destruct (findNode srv c) as [k|]; [|intros [= <- <- <-]; by left].
    destruct (c !! k) as [n|] eqn:Hk; [|intros [= <- <- <-]; by left].
    simpl. intros [= <- <- <-]. right. exists k, n. repeat split; try done.
  - destruct (findNode srv c) as [k|]; [|intros [= <- <- <-]; by left].
    destruct (c !! k) as [n|] eqn:Hk; [|intros [= <- <- <-]; by left].
    simpl. intros [= <- <- <-]. right. exists k, n. repeat split; try done.
Qed.

Lemma call_grows P Q c o srv args c' ok reply :
  let stored := if Handoff args then set_isHandoff false (Msg args) else Msg args in
  P (Username args, stored) →
  (isHandoff stored = true → Q stored) →
  call c o srv args = (c', ok, reply) →
  clusterGrows P Q c c'.
Proof.
  intros stored HP HQ Hcall.
  destruct (call_cases _ _ _ _ _ _ _ Hcall) as [[-> _]|(k & n & _ & Hk & -> & _)].
  - apply clusterGrows_refl.
  - apply clusterGrows_insert with n; [done|]. by apply ReplicaPut_grows.
Qed.

(** ** Coordinator: invariants of the replication loop *)

(** The steps of [sendToCandidate], read back from a normal return. *)
Lemma sendToCandidate_Ret fuel net db username i server s s' :
  sendToCandidate fuel net db username i server s = Ret s' →
  ∃ target msg targets c ok reply,
    getHandoffTarget fuel db username i (replicaLocations s) (handoffTargets s)
    = Ret target ∧
    setHintedHandoff db username i target (message s) (handoffTargets s)
    = Ret (msg, targets) ∧
    call (cluster s) (net (calls s)) server (mkReplicaPutArgs username msg false)
    = (c, ok, reply) ∧
    s' = if ok && String.eqb (ReplyErr reply) OK
         then mkPutState msg (int_add (totalReplicas s) 1)
                (<[i := true]> (replicaLocations s)) targets c (S (calls s))
         else mkPutState msg (totalReplicas s) (replicaLocations s) targets c
                (S (calls s)).
Proof.
  unfold sendToCandidate. intros Hsend.
  destruct (getHandoffTarget _ _ _ _ _ _) as [target| |] eqn:Htarget; [|done..].
  simpl in Hsend.
  destruct (setHintedHandoff _ _ _ _ _ _) as [[msg targets]| |] eqn:Hset; [|done..].
  simpl in Hsend.
  destruct (call _ _ _ _) as [[c ok] reply] eqn:Hcall.
  exists target, msg, targets, c, ok, reply.
  split; [done|]. split; [done|]. split; [done|].
  by destruct (ok && _); injection Hsend as <-.
Qed.

(** The message that "Set Hinted Handoff" produces is a copy of the
    message it is given; it is flagged only together with the username. *)
Lemma setHintedHandoff_Ret db username i target msg targets msg' targets' :
  setHintedHandoff db username i target msg targets = Ret (msg', targets') →
  sameContent msg msg' ∧
  (target = -1 → isHandoff msg' = false) ∧
  (isHandoff msg' = true → handoffUsername msg' = username).
Proof.
  unfold setHintedHandoff. destruct (Z.eqb_spec target (-1)) as [->|Hne].
  - intros [= <- <-]. by destruct msg.
  - destruct (index (servers db) i) as [dest| |]; [|done..]. simpl.
    intros [= <- <-]. done.
Qed.

Section PutInvariant.
Context (fuel : nat) (net : nat → Outcome) (db : MMDatabase) (username : string).
Context (Inv : PutState → Prop) (J : Z → string → Prop).
Hypothesis Hstep : ∀ i server s s',
  J i server →
  marked (replicaLocations s) i = false →
  i ≠ me db →
  Inv s →
  sendToCandidate fuel net db username i server s = Ret s' →
  Inv s'.

Lemma fanOut_inv list : ∀ i s s',
  (∀ k server, list !! k = Some server →
     J (Nat.iter k (fun z => int_add z 1) i) server) →
  Inv s →
  fanOut fuel net db username i list s = Ret s' →
  Inv s'.
Proof.
  induction list as [|server rest IH]; intros i s s' HJ Hinv Hfan.
  - simpl in Hfan. by injection Hfan as <-.
  - simpl in Hfan.
    destruct (negb (marked (replicaLocations s) i) && negb (i =? me db)) eqn:Hguard.
    + apply andb_true_iff in Hguard as [Hrep Hme].
      apply negb_true_iff in Hrep, Hme. apply Z.eqb_neq in Hme.
      destruct (sendToCandidate fuel net db username i server s) as [s1| |] eqn:Hsend;
        [|done..].
      simpl in Hfan.
      assert (Inv s1) as Hinv1.
      { eapply Hstep; [|done..]. by apply (HJ O). }
      destruct (totalReplicas s1 >=? nReplicas db).
      * by injection Hfan as <-.
      * eapply IH; [|done..]. intros k server' Hk.
        pose proof (HJ (S k) server' Hk) as HJk.
        by rewrite Nat.iter_succ_r in HJk.
    + simpl in Hfan. destruct (totalReplicas s >=? nReplicas db).
      * by injection Hfan as <-.
      * eapply IH; [|done..]. intros k server' Hk.
        pose proof (HJ (S k) server' Hk) as HJk.
        by rewrite Nat.iter_succ_r in HJk.
Qed.

Lemma replicateLoop_inv sweeps : ∀ s s',
  (∀ list, GetCoordinatorList db username = Ret list →
     ∀ k server, list !! k = Some server →
       J (Nat.iter k (fun z => int_add z 1) 0) server) →
  Inv s →
  replicateLoop fuel sweeps net db username s = Ret s' →
  Inv s'.
Proof.
  induction sweeps as [|sweeps IH]; intros s s' HJ Hinv Hloop; [done|].
  simpl in Hloop. destruct (totalReplicas s <? int_add (nReplicas db) (-1)).
  - destruct (GetCoordinatorList db username) as [list| |] eqn:Hlist; [|done..].
    simpl in Hloop.
    destruct (fanOut fuel net db username 0 list s) as [s1| |] eqn:Hfan; [|done..].
    simpl in Hloop. eapply IH; [done| |done].
    eapply fanOut_inv; [|done..]. by apply HJ.
  - by injection Hloop as <-.
Qed.

(** On a normal return the loop has reached its exit condition. *)
Lemma replicateLoop_exit sweeps : ∀ s s',
  replicateLoop fuel sweeps net db username s = Ret s' →
  int_add (nReplicas db) (-1) ≤ totalReplicas s'.
Proof.
  induction sweeps as [|sweeps IH]; intros s s' Hloop; [done|].
  simpl in Hloop.
  destruct (Z.ltb_spec (totalReplicas s) (int_add (nReplicas db) (-1))).
  - destruct (GetCoordinatorList db username) as [list| |]; [|done..].
    simpl in Hloop.
    destruct (fanOut fuel net db username 0 list s) as [s1| |]; [|done..].
    simpl in Hloop. by eapply IH.
  - by injection Hloop as <-.
Qed.
End PutInvariant.

(** ** Coordinator: what a put does to the cluster *)

Lemma sameContent_trans m1 m2 m3 :
  sameContent m1 m2 → sameContent m2 m3 → sameContent m1 m3.
Proof. intros (? & ? & ?) (? & ? & ?). repeat split; congruence. Qed.

Lemma LocalPut_grows P Q n username msg :
  P (username, msg) → nodeGrows P Q n (fst (LocalPut n username msg)).
Proof.
  intros HP. split; [done|]. split.
  - exists [(username, msg)]. split; [done | by apply Forall_singleton].
  - exists []. by rewrite app_nil_r.
Qed.

(** The end of [CoordinatorPut], read back from a normal return. *)
Lemma replicateAndStore_Ret fuel net c self db username msg e c' k :
  replicateAndStore fuel net c self db username msg = Ret (e, c', k) →
  ∃ s n, replicateLoop fuel fuel net db username (mkPutState msg 0 ∅ ∅ c O) = Ret s ∧
         cluster s !! self = Some n ∧
         e = OK ∧ c' = <[self := fst (LocalPut n username (message s))]> (cluster s) ∧
         k = calls s.
Proof.
  unfold replicateAndStore.
  destruct (replicateLoop _ _ _ _ _ _) as [s| |] eqn:Hloop; [|done..]. simpl.
  destruct (cluster s !! self) as [n|] eqn:Hn; [|done].
  intros [= <- <- <-]. by exists s, n.
Qed.

Lemma CoordinatorPut_Ret fuel net c self username rid msg e c' k :
  CoordinatorPut fuel net c self username rid msg = Ret (e, c', k) →
  ∃ n, c !! self = Some n ∧
       ((e = ErrWrongCoordinator ∧ c' = c ∧ k = O) ∨
        replicateAndStore fuel net c self (node_db n) username msg = Ret (e, c', k)).
Proof.
  unfold CoordinatorPut. destruct (c !! self) as [n|]; [|done].
  destruct (getCoordinatorIndex (node_db n) username) as [coordinator| |]; [|done..].
  simpl. destruct (negb _ && negb _).
  - intros [= <- <- <-]. exists n. split; [done|]. by left.
  - intros Hr. exists n. split; [done|]. by right.
Qed.

(** [CoordinatorPut] only ever adds: on every node of the cluster the ring
    configuration stays as it was, the Local Store gains (at its end)
    entries under the given username that are copies of the given
    message, and the hint queue gains hints that are flagged copies of
    the message for that username.  Nothing is removed or rewritten, and
    the cluster keeps its size. *)
Theorem CoordinatorPut_grows (fuel : nat) (net : nat → Outcome) (c : list Node)
    (self : nat) (username : string) (rid : RequestID) (msg : Message)
    (e : Err) (c' : list Node) (k : nat) :
  CoordinatorPut fuel net c self username rid msg = Ret (e, c', k) →
  clusterGrows
    (fun entry => fst entry = username ∧ sameContent msg (snd entry))
    (fun hint => isHandoff hint = true ∧ handoffUsername hint = username
                 ∧ sameContent msg hint)
    c c'.
Proof.
  intros Hput.
  destruct (CoordinatorPut_Ret _ _ _ _ _ _ _ _ _ _ Hput)
    as (n & Hself & [(_ & -> & _)|Hrs]); [apply clusterGrows_refl|].
  destruct (replicateAndStore_Ret _ _ _ _ _ _ _ _ _ _ Hrs)
    as (s & n' & Hloop & Hn' & _ & -> & _).
  set (P := fun entry : string * Message =>
              fst entry = username ∧ sameContent msg (snd entry)).
  set (Q := fun hint : Message =>
              isHandoff hint = true ∧ handoffUsername hint = username
              ∧ sameContent msg hint).
  assert (Hinv : clusterGrows P Q c (cluster s) ∧ sameContent msg (message s)).
  { apply (replicateLoop_inv fuel net (node_db n) username
             (fun s => clusterGrows P Q c (cluster s) ∧ sameContent msg (message s))
             (fun _ _ => True)) with fuel (mkPutState msg 0 ∅ ∅ c O); [|done| |done].
    - intros i server s0 s1 _ _ _ [Hg Hc] Hsend.
      destruct (sendToCandidate_Ret _ _ _ _ _ _ _ _ Hsend)
        as (target & m & targets & c1 & ok & reply & _ & Hset & Hcall & ->).
      destruct (setHintedHandoff_Ret _ _ _ _ _ _ _ _ Hset) as (Hm & _ & Huser).
      assert (Hc1 : sameContent msg m) by (by eapply sameContent_trans).
      assert (Hg1 : clusterGrows P Q c c1).
      { eapply clusterGrows_trans; [done|].
        eapply call_grows; [| |done]; simpl; unfold P, Q; auto. }
      by destruct (ok && _).
    - split; [apply clusterGrows_refl | done]. }
  destruct Hinv as [Hg Hc].
  eapply clusterGrows_trans; [done|].
  apply clusterGrows_insert with n'; [done|]. by apply LocalPut_grows.
Qed.

Lemma CoordinatorPut_grows_witness :
  ∃ c' k,
    CoordinatorPut 5 (scripted [Dropped; Dropped; Dropped; Delivered; Delivered])
      (startCluster servers5) 0 "a" (mkRequestID 7 1) hello = Ret (OK, c', k) ∧
    clusterGrows
      (fun entry => fst entry = "a"%string ∧ sameContent hello (snd entry))
      (fun hint => isHandoff hint = true ∧ handoffUsername hint = "a"%string
                   ∧ sameContent hello hint)
      (startCluster servers5) c'.
Proof.
  eexists _, _. split; [vm_compute; reflexivity|].
  apply (CoordinatorPut_grows 5
           (scripted [Dropped; Dropped; Dropped; Delivered; Delivered])
           (startCluster servers5) 0 "a" (mkRequestID 7 1) hello OK _ 7%nat).
  vm_compute. reflexivity.
Defined.

Lemma delivered_step net k :
  delivered net k ≤ delivered net (S k) ∧
  (net k = Delivered → delivered net (S k) = delivered net k + 1).
Proof. simpl. destruct (net k); split; (lia || done). Qed.

Lemma wrap64_bounds z : - 2 ^ 63 ≤ wrap64 z < 2 ^ 63.
Proof.
  unfold wrap64. pose proof (Z.mod_pos_bound (z + 2 ^ 63) (2 ^ 64) ltac:(lia)). lia.
Qed.

Lemma wrap64_le z : - 2 ^ 63 ≤ z → wrap64 z ≤ z.
Proof.
  intros Hz. unfold wrap64.
  pose proof (Z.mod_le (z + 2 ^ 63) (2 ^ 64) ltac:(lia) ltac:(lia)). lia.
Qed.

(** A [CoordinatorPut] that returns [OK] has had at least [nReplicas - 1]
    of its RPCs delivered and acknowledged: the counter that ends the
    replication loop is only advanced by an acknowledged RPC. *)
Theorem CoordinatorPut_OK_acknowledged (fuel : nat) (net : nat → Outcome)
    (c : list Node) (self : nat) (n : Node) (username : string) (rid : RequestID)
    (msg : Message) (c' : list Node) (k : nat) :
  c !! self = Some n →
  - 2 ^ 63 < nReplicas (node_db n) < 2 ^ 63 →
  CoordinatorPut fuel net c self username rid msg = Ret (OK, c', k) →
  nReplicas (node_db n) - 1 ≤ delivered net k.
Proof.
  intros Hself Hr Hput.
  destruct (CoordinatorPut_Ret _ _ _ _ _ _ _ _ _ _ Hput)
    as (n0 & Hself0 & [(? & _)|Hrs]); [done|].
  assert (n0 = n) as -> by congruence.
  destruct (replicateAndStore_Ret _ _ _ _ _ _ _ _ _ _ Hrs)
    as (s & n' & Hloop & _ & _ & _ & ->).
  pose proof (replicateLoop_exit _ _ _ _ _ _ _ Hloop) as Hexit.
  rewrite int_add_small in Hexit by lia.
  assert (Hinv : - 2 ^ 63 ≤ totalReplicas s ≤ delivered net (calls s)).
  { apply (replicateLoop_inv fuel net (node_db n) username
             (fun s => - 2 ^ 63 ≤ totalReplicas s ≤ delivered net (calls s))
             (fun _ _ => True)) with fuel (mkPutState msg 0 ∅ ∅ c O); [|done| |done].
    - intros i server s0 s1 _ _ _ Hinv Hsend.
      destruct (sendToCandidate_Ret _ _ _ _ _ _ _ _ Hsend)
        as (target & m & targets & c1 & ok & reply & _ & _ & Hcall & ->).
      pose proof (delivered_step net (calls s0)) as [Hmono Hdel].
      destruct ok; cbn [andb].
      + destruct (call_cases _ _ _ _ _ _ _ Hcall)
          as [[_ ?]|(_ & _ & _ & _ & _ & _ & [Hok _] & _)]; [done|].
        specialize (Hdel (Hok eq_refl)).
        destruct (String.eqb _ _); cbn [totalReplicas calls]; [|lia].
        unfold int_add.
        pose proof (wrap64_bounds (totalReplicas s0 + 1)).
        pose proof (wrap64_le (totalReplicas s0 + 1) ltac:(lia)). lia.
      + cbn [totalReplicas calls]. lia.
    - simpl. lia. }
  lia.
Qed.

Lemma CoordinatorPut_OK_acknowledged_witness :
  2 ≤ delivered (scripted [Delivered; Delivered; Dropped; Dropped]) 4.
Proof.
  assert (Hr : - 2 ^ 63 < nReplicas (node_db (StartServer servers5 1)) < 2 ^ 63).
  { split; reflexivity. }
  assert (Hput : ∃ c', CoordinatorPut 5
                         (scripted [Delivered; Delivered; Dropped; Dropped])
                         (startCluster servers5) 1 "dave" (mkRequestID 7 3) hello
                       = Ret (OK, c', 4%nat)).
  { eexists. vm_compute. reflexivity. }
  destruct Hput as [c' Hput].
  exact (CoordinatorPut_OK_acknowledged 5
           (scripted [Delivered; Delivered; Dropped; Dropped])
           (startCluster servers5) 1 (StartServer servers5 1) "dave"
           (mkRequestID 7 3) hello c' 4 eq_refl Hr Hput).
Defined.

Lemma iter_int_add (k : nat) :
  Z.of_nat k < 2 ^ 63 → Nat.iter k (fun z => int_add z 1) 0 = Z.of_nat k.
Proof.
  induction k as [|k IH]; intros Hk; [done|].
  simpl. rewrite IH by lia. rewrite int_add_small by lia. lia.
Qed.

Lemma Forall_False_nil {A} (l : list A) : Forall (fun _ => False) l → l = [].
Proof. by destruct 1. Qed.

(** With a replication factor of [nServers - 1] or [nServers] the range
    check accepts every candidate of the ring, so a [CoordinatorPut]
    never sends a hint: no hint queue in the cluster changes. *)
Theorem CoordinatorPut_no_hints (fuel : nat) (net : nat → Outcome) (c : list Node)
    (self : nat) (n : Node) (username : string) (rid : RequestID) (msg : Message)
    (e : Err) (c' : list Node) (k : nat) :
  c !! self = Some n →
  nServers (node_db n) = len (servers (node_db n)) →
  0 < nServers (node_db n) < 2 ^ 32 →
  nServers (node_db n) - 1 ≤ nReplicas (node_db n) ≤ nServers (node_db n) →
  CoordinatorPut fuel net c self username rid msg = Ret (e, c', k) →
  Forall2 (fun m m' => handoffMessages (node_db m') = handoffMessages (node_db m)) c c'.
Proof.
  intros Hself Hlen Hn Hr Hput.
  set (P := fun _ : string * Message => True).
  set (Q := fun _ : Message => False).
  assert (Hg : clusterGrows P Q c c').
  { destruct (CoordinatorPut_Ret _ _ _ _ _ _ _ _ _ _ Hput)
      as (n0 & Hself0 & [(_ & -> & _)|Hrs]); [apply clusterGrows_refl|].
    assert (n0 = n) as -> by congruence.
    destruct (replicateAndStore_Ret _ _ _ _ _ _ _ _ _ _ Hrs)
      as (s & n' & Hloop & Hn' & _ & -> & _).
    assert (Hinv : clusterGrows P Q c (cluster s)).
    { apply (replicateLoop_inv fuel net (node_db n) username
               (fun s => clusterGrows P Q c (cluster s))
               (fun i _ => 0 ≤ i < nServers (node_db n))) with fuel
               (mkPutState msg 0 ∅ ∅ c O); [| |apply clusterGrows_refl|done].
      - intros i server s0 s1 Hi _ _ Hg Hsend.
        destruct (sendToCandidate_Ret _ _ _ _ _ _ _ _ Hsend)
          as (target & m & targets & c1 & ok & reply & Htarget & Hset & Hcall & ->).
        assert (target = -1) as ->.
        { unfold getHandoffTarget in Htarget.
          rewrite inProperRange_closed_rotation in Htarget by (done || lia).
          pose proof (Z.mod_pos_bound (i - hash username mod nServers (node_db n))
                        (nServers (node_db n)) ltac:(lia)).
          destruct (Z.leb_spec
                      ((i - hash username mod nServers (node_db n))
                         mod nServers (node_db n)) (nReplicas (node_db n)));
            [|lia].
          simpl in Htarget. by injection Htarget as <-. }
        destruct (setHintedHandoff_Ret _ _ _ _ _ _ _ _ Hset) as (_ & Hflag & _).
        assert (Hg1 : clusterGrows P Q c c1).
        { eapply clusterGrows_trans; [done|].
          eapply call_grows; [| |done]; simpl; [done|].
          rewrite Hflag; done. }
        by destruct (ok && _).
      - intros list Hlist j server Hj. apply lookup_lt_Some in Hj.
        rewrite GetCoordinatorList_spec in Hlist by done.
        injection Hlist as <-.
        rewrite length_app, length_drop, length_take in Hj.
        unfold len in Hlen. rewrite iter_int_add by lia. lia. }
    eapply clusterGrows_trans; [done|].
    apply clusterGrows_insert with n'; [done|]. by apply LocalPut_grows. }
  eapply Forall2_impl; [exact Hg|].
  intros m m' (_ & _ & (hints & -> & Hhints)).
  apply Forall_False_nil in Hhints as ->. by rewrite app_nil_r.
Qed.

Lemma CoordinatorPut_no_hints_witness :
  ∃ c' k,
    CoordinatorPut 4 (scripted [Dropped; Delivered; Delivered; Delivered])
      (startCluster ["s0"; "s1"; "s2"; "s3"]) 0 "a" (mkRequestID 7 4) hello
    = Ret (OK, c', k) ∧
    Forall2 (fun m m' => handoffMessages (node_db m') = handoffMessages (node_db m))
      (startCluster ["s0"; "s1"; "s2"; "s3"]) c'.
Proof.
  eexists _, _. split; [vm_compute; reflexivity|].
  apply (CoordinatorPut_no_hints 4 (scripted [Dropped; Delivered; Delivered; Delivered])
           (startCluster ["s0"; "s1"; "s2"; "s3"]) 0
           (StartServer ["s0"; "s1"; "s2"; "s3"] 0) "a" (mkRequestID 7 4) hello
           OK _ 3%nat eq_refl eq_refl); [done | done |].
  vm_compute. reflexivity.
Defined.

(** With a replication factor of at most one the replication loop is not
    entered: a put that passes the coordinator assertion issues no RPC,
    stores the message on the receiving node only and returns [OK]. *)
Theorem CoordinatorPut_single_replica (fuel : nat) (net : nat → Outcome)
    (c : list Node) (self : nat) (n : Node) (username : string) (rid : RequestID)
    (msg : Message) (coordinator : Z) :
  c !! self = Some n →
  getCoordinatorIndex (node_db n) username = Ret coordinator →
  coordinator = me (node_db n) ∨ isHandoff msg = true →
  - 2 ^ 63 < nReplicas (node_db n) ≤ 1 →
  fuel ≠ O →
  CoordinatorPut fuel net c self username rid msg
  = Ret (OK, <[self := fst (LocalPut n username msg)]> c, O).
Proof.
  intros Hself Hcoord Hpass Hr Hfuel. unfold CoordinatorPut.
  rewrite Hself, Hcoord. simpl.
  assert (negb (coordinator =? me (node_db n)) && negb (isHandoff msg) = false) as ->.
  { destruct Hpass as [->| ->]; [by rewrite Z.eqb_refl | apply andb_false_r]. }
  unfold replicateAndStore. destruct fuel as [|fuel]; [done|]. simpl.
  rewrite int_add_small by lia.
  destruct (Z.ltb_spec 0 (nReplicas (node_db n) + -1)); [lia|]. simpl.
  by rewrite Hself.
Qed.

Lemma CoordinatorPut_single_replica_witness :
  CoordinatorPut 1 (scripted [])
    [mkNode (mkMMDatabase 0 ["s0"; "s1"] 2 1 []) [];
     mkNode (mkMMDatabase 1 ["s0"; "s1"] 2 1 []) []] 1 "f" (mkRequestID 7 5) hello
  = Ret (OK,
         [mkNode (mkMMDatabase 0 ["s0"; "s1"] 2 1 []) [];
          mkNode (mkMMDatabase 1 ["s0"; "s1"] 2 1 []) [("f"%string, hello)]], O).
Proof.
  apply (CoordinatorPut_single_replica 1 (scripted [])
           [mkNode (mkMMDatabase 0 ["s0"; "s1"] 2 1 []) [];
            mkNode (mkMMDatabase 1 ["s0"; "s1"] 2 1 []) []] 1
           (mkNode (mkMMDatabase 1 ["s0"; "s1"] 2 1 []) []) "f" (mkRequestID 7 5)
           hello 1 eq_refl eq_refl); [by left | done | done].
Defined.

(** ** Handoff drainer *)

Lemma storesGrow_refl c : storesGrow c c.
Proof. induction c; constructor; [done | done]. Qed.

Lemma storesGrow_trans c1 c2 c3 : storesGrow c1 c2 → storesGrow c2 c3 → storesGrow c1 c3.
Proof.
  unfold storesGrow. intros H12. revert c3.
  induction H12 as [|n1 n2 c1 c2 [Hc Hs] H12 IH]; intros c3 H23.
  - inversion H23. constructor.
  - inversion H23 as [|? n3 ? c3' [Hc' Hs'] H23']; subst.
    constructor; [|by apply IH]. split; [|by etrans].
    destruct Hc as (? & ? & ? & ?), Hc' as (? & ? & ? & ?).
    repeat split; congruence.
Qed.

Lemma clusterGrows_storesGrow P Q c c' : clusterGrows P Q c c' → storesGrow c c'.
Proof.
  intros Hg. eapply Forall2_impl; [exact Hg|].
  intros m m' (Hc & (added & -> & _) & _). split; [done|]. by apply prefix_app_r.
Qed.

Lemma clusterGrows_sameQueues P c c' :
  clusterGrows P (fun _ => False) c c' → sameQueues c c'.
Proof.
  intros Hg. eapply Forall2_impl; [exact Hg|].
  intros m m' (_ & _ & (hints & -> & Hhints)).
  apply Forall_False_nil in Hhints as ->. by rewrite app_nil_r.
Qed.

Lemma storesGrow_insert c k n n' :
  c !! k = Some n → sameConfig n n' → node_store n `prefix_of` node_store n' →
  storesGrow c (<[k := n']> c).
Proof.
  intros Hk Hc Hs. unfold storesGrow. rewrite <- (list_insert_id c k n Hk) at 1.
  apply Forall2_insert; [apply storesGrow_refl | done].
Qed.

(** Which node an address resolves to depends on the configuration only. *)
Lemma findNode_storesGrow srv c c' : storesGrow c c' → findNode srv c' = findNode srv c.
Proof.
  induction 1 as [|m m' c c' [(Hme & Hsrv & _) _] _ IH]; [done|].
  simpl. unfold listensOn. rewrite Hme, Hsrv, IH. done.
Qed.

Lemma findNode_lookup srv c k : findNode srv c = Some k → is_Some (c !! k).
Proof.
  revert k. induction c as [|m c IH]; intros k; [done|]. simpl.
  destruct (listensOn srv m); [by intros [= <-]; eexists|].
  destruct (findNode srv c) as [k'|]; [|done]. simpl. intros [= <-].
  by apply IH.
Qed.

(** A hint delivery ([args.Handoff] set) leaves all hint queues alone. *)
Lemma call_handoff_quiet c o srv username msg c' ok reply :
  call c o srv (mkReplicaPutArgs username msg true) = (c', ok, reply) →
  clusterGrows (fun _ => True) (fun _ => False) c c'.
Proof. intros Hcall. eapply call_grows; [| |done]; simpl; done. Qed.

Lemma removeMessage_Permutation {A : Type} (slice result : list A) (k : Z) :
  0 ≤ k < len slice →
  removeMessage slice k = Ret result →
  result ≡ₚ delete (Z.to_nat k) slice.
Proof.
  intros Hk Hrm.
  assert (Hlen : len slice = Z.of_nat (length slice)) by done.
  destruct (lookup_lt_is_Some_2 slice (Z.to_nat k)) as [x Hx]; [lia|].
  destruct (lookup_lt_is_Some_2 slice (Z.to_nat (len slice - 1)))
    as [lastElem Hlast]; [lia|].
  rewrite (removeMessage_eval slice k x lastElem) in Hrm by (done || lia).
  injection Hrm as <-. apply swap_truncate_delete; (done || lia).
Qed.

Lemma removeMessage_in_bounds_Ret {A : Type} (slice : list A) (k : Z) :
  0 ≤ k < len slice → ∃ result, removeMessage slice k = Ret result.
Proof.
  intros Hk.
  assert (Hlen : len slice = Z.of_nat (length slice)) by done.
  destruct (lookup_lt_is_Some_2 slice (Z.to_nat k)) as [x Hx]; [lia|].
  destruct (lookup_lt_is_Some_2 slice (Z.to_nat (len slice - 1)))
    as [lastElem Hlast]; [lia|].
  eexists. apply (removeMessage_eval slice k x lastElem); (done || lia).
Qed.

Lemma quiet_lookup c c' k n :
  clusterGrows (fun _ => True) (fun _ => False) c c' →
  c !! k = Some n →
  ∃ n', c' !! k = Some n' ∧
        handoffMessages (node_db n') = handoffMessages (node_db n).
Proof.
  intros Hg Hk.
  destruct (clusterGrows_lookup _ _ _ _ _ _ Hg Hk)
    as (n' & Hk' & _ & _ & (hints & Hq & Hhints)).
  exists n'. split; [done|].
  apply Forall_False_nil in Hhints as ->. by rewrite app_nil_r in Hq.
Qed.

(** The inner loop of the drainer, started at index [i] of the queue:
    either no RPC is acknowledged and every hint queue is as before, or
    the first acknowledged RPC, for the hint at some index [j], ends the
    loop with that index removed from the queue of the node. *)
Lemma handoffRange_spec net self (queue : list Message) :
  len queue < 2 ^ 63 →
  ∀ snapshot (i : nat) c calls n,
    c !! self = Some n →
    handoffMessages (node_db n) = queue →
    snapshot = drop i queue →
    ∃ c' calls',
      handoffRange net self (Z.of_nat i) snapshot c calls = Ret (c', calls') ∧
      ((clusterGrows (fun _ => True) (fun _ => False) c c' ∧
        calls' = (calls + length snapshot)%nat)
       ∨
       (∃ (j : nat) c1 n1 queue',
          (i ≤ j < length queue)%nat ∧
          clusterGrows (fun _ => True) (fun _ => False) c c1 ∧
          c1 !! self = Some n1 ∧
          removeMessage queue (Z.of_nat j) = Ret queue' ∧
          c' = <[self := set_handoffMessages queue' n1]> c1 ∧
          calls' = S (calls + (j - i)) ∧
          net (calls + (j - i))%nat = Delivered)).
Proof.
  intros Hmax. unfold len in Hmax.
  induction snapshot as [|message rest IH]; intros i c calls n Hself Hq Hsnap.
  - exists c, calls. split; [done|]. left.
    split; [apply clusterGrows_refl | simpl; lia].
  - assert (Hi : (i < length queue)%nat).
    { destruct (decide (i < length queue)%nat); [done|].
      rewrite drop_ge in Hsnap by lia. done. }
    simpl.
    destruct (call c (net calls) (handoffDestination message)
                (mkReplicaPutArgs (handoffUsername message) message true))
      as [[c1 ok] reply] eqn:Hcall.
    pose proof (call_handoff_quiet _ _ _ _ _ _ _ _ Hcall) as Hquiet.
    destruct (quiet_lookup _ _ _ _ Hquiet Hself) as (n1 & Hself1 & Hq1).
    rewrite Hq in Hq1.
    destruct ok.
    + destruct (call_cases _ _ _ _ _ _ _ Hcall)
        as [[_ ?]|(_ & _ & _ & _ & _ & _ & [Hok _] & Hreply)]; [done|].
      rewrite (Hreply eq_refl). simpl. rewrite Hself1, Hq1.
      destruct (removeMessage_in_bounds_Ret queue (Z.of_nat i)) as [queue' Hrm];
        [unfold len; lia|].
      rewrite Hrm. simpl. eexists _, _. split; [done|]. right.
      exists i, c1, n1, queue'. rewrite Nat.sub_diag, Nat.add_0_r.
      repeat split; try done. by apply Hok.
    + simpl. rewrite int_add_small by lia.
      replace (Z.of_nat i + 1) with (Z.of_nat (S i)) by lia.
      destruct (IH (S i) c1 (S calls) n1 Hself1 Hq1) as (c' & calls' & Hrange & Hres).
      { replace (S i) with (i + 1)%nat by lia.
        by rewrite <- drop_drop, <- Hsnap. }
      exists c', calls'. split; [done|].
      destruct Hres as [[Hg ->]|(j & c2 & n2 & queue' & Hj & Hg & Hself2 & Hrm & -> & -> & Hnet)].
      * left. split; [by eapply clusterGrows_trans | simpl; lia].
      * right. exists j, c2, n2, queue'.
        replace (S calls + (j - S i))%nat with (calls + (j - i))%nat in * by lia.
        repeat split; try done; try lia. by eapply clusterGrows_trans.
Qed.

Lemma set_handoffMessages_sameConfig queue n : sameConfig n (set_handoffMessages queue n).
Proof. done. Qed.

(** One pass of the drainer removes at most one hint: it never panics,
    issues at most one RPC per queued hint, changes no configuration,
    only adds to stores, leaves the hint queues of the other nodes alone,
    and leaves its own queue either as it was or without exactly one of
    its hints (up to order). *)
Theorem handoffPass_at_most_one (net : nat → Outcome) (self : nat) (c : list Node)
    (calls : nat) (n : Node) :
  c !! self = Some n →
  len (handoffMessages (node_db n)) < 2 ^ 63 →
  ∃ c' calls' n',
    handoffPass net self c calls = Ret (c', calls') ∧
    storesGrow c c' ∧
    (calls ≤ calls' ≤ calls + length (handoffMessages (node_db n)))%nat ∧
    (∀ j m m', j ≠ self → c !! j = Some m → c' !! j = Some m' →
       handoffMessages (node_db m') = handoffMessages (node_db m)) ∧
    c' !! self = Some n' ∧
    (handoffMessages (node_db n') = handoffMessages (node_db n) ∨
     ∃ j h, handoffMessages (node_db n) !! j = Some h ∧
            handoffMessages (node_db n') ≡ₚ delete j (handoffMessages (node_db n))).
Proof.
  intros Hself Hmax. unfold handoffPass. rewrite Hself.
  destruct (handoffRange_spec net self _ Hmax (handoffMessages (node_db n)) O
              c calls n Hself eq_refl eq_refl)
    as (c' & calls' & Hrange & Hres).
  destruct Hres as [[Hg ->]|(j & c1 & n1 & queue' & Hj & Hg & Hself1 & Hrm & -> & -> & _)].
  - destruct (quiet_lookup _ _ _ _ Hg Hself) as (n' & Hself' & Hq').
    exists c', (calls + length (handoffMessages (node_db n)))%nat, n'.
    split; [done|]. split; [by eapply clusterGrows_storesGrow|].
    split; [lia|]. split; [|split; [done | by left]].
    intros k m m' _ Hm Hm'.
    destruct (quiet_lookup _ _ _ _ Hg Hm) as (m'' & Hm'' & Hq). congruence.
  - assert (Hlt : (self < length c1)%nat) by (by eapply lookup_lt_Some).
    exists (<[self := set_handoffMessages queue' n1]> c1), (S (calls + (j - 0))),
           (set_handoffMessages queue' n1).
    split; [done|]. split.
    { eapply storesGrow_trans; [by eapply clusterGrows_storesGrow|].
      by apply storesGrow_insert with n1. }
    split; [lia|]. split; [|split].
    + intros k m m' Hk Hm Hm'. rewrite list_lookup_insert_ne in Hm' by done.
      destruct (quiet_lookup _ _ _ _ Hg Hm) as (m'' & Hm'' & Hq). congruence.
    + by apply list_lookup_insert_eq.
    + right. destruct (lookup_lt_is_Some_2 (handoffMessages (node_db n)) j)
        as [h Hh]; [lia|].
      exists j, h. split; [done|]. simpl.
      rewrite <- (Nat2Z.id j) at 1. apply removeMessage_Permutation; [|done].
      unfold len. lia.
Qed.

Lemma handoffPass_at_most_one_witness :
  ∃ c' calls' n',
    handoffPass (scripted [Dropped; Delivered]) 0
      [mkNode (mkMMDatabase 0 ["s0"; "s1"; "s2"] 3 3
                 [mkMessage mkMessageID true "s1" "bob" "m1" "inbox";
                  mkMessage mkMessageID true "s2" "bob" "m2" "inbox";
                  mkMessage mkMessageID true "s1" "bob" "m3" "inbox"]) [];
       StartServer ["s0"; "s1"; "s2"] 1; StartServer ["s0"; "s1"; "s2"] 2] 0
    = Ret (c', calls') ∧
    calls' = 2%nat ∧
    c' !! 0%nat = Some n' ∧
    handoffMessages (node_db n')
    = [mkMessage mkMessageID true "s1" "bob" "m1" "inbox";
       mkMessage mkMessageID true "s1" "bob" "m3" "inbox"].
Proof.
  destruct (handoffPass_at_most_one (scripted [Dropped; Delivered]) 0
      [mkNode (mkMMDatabase 0 ["s0"; "s1"; "s2"] 3 3
                 [mkMessage mkMessageID true "s1" "bob" "m1" "inbox";
                  mkMessage mkMessageID true "s2" "bob" "m2" "inbox";
                  mkMessage mkMessageID true "s1" "bob" "m3" "inbox"]) [];
       StartServer ["s0"; "s1"; "s2"] 1; StartServer ["s0"; "s1"; "s2"] 2] 0 _
      eq_refl) as (c' & calls' & n' & Hpass & _ & _ & _ & Hself & _); [done|].
  exists c', calls', n'. split; [exact Hpass|].
  vm_compute in Hpass. injection Hpass as <- <-.
  split; [reflexivity|]. split; [exact Hself|].
  vm_compute in Hself. by injection Hself as <-.
Defined.

(** When none of the RPCs of a pass is delivered with its reply, the pass
    tries every queued hint once and every hint queue of the cluster is
    as before. *)
Theorem handoffPass_unacknowledged (net : nat → Outcome) (self : nat) (c : list Node)
    (calls : nat) (n : Node) :
  c !! self = Some n →
  len (handoffMessages (node_db n)) < 2 ^ 63 →
  (∀ j, (j < length (handoffMessages (node_db n)))%nat →
     net (calls + j)%nat ≠ Delivered) →
  ∃ c',
    handoffPass net self c calls
    = Ret (c', (calls + length (handoffMessages (node_db n)))%nat) ∧
    sameQueues c c' ∧ storesGrow c c'.
Proof.
  intros Hself Hmax Hnet. unfold handoffPass. rewrite Hself.
  destruct (handoffRange_spec net self _ Hmax (handoffMessages (node_db n)) O
              c calls n Hself eq_refl eq_refl)
    as (c' & calls' & Hrange & Hres).
  destruct Hres as [[Hg ->]|(j & _ & _ & _ & Hj & _ & _ & _ & _ & _ & Hd)].
  - exists c'. split; [done|].
    split; [by eapply clusterGrows_sameQueues | by eapply clusterGrows_storesGrow].
  - exfalso. apply (Hnet (j - 0)%nat); [lia | done].
Qed.

Lemma handoffPass_unacknowledged_witness :
  ∃ c',
    handoffPass (scripted [ReplyLost; Dropped]) 0
      [mkNode (mkMMDatabase 0 ["s0"; "s1"; "s2"] 3 3
                 [mkMessage mkMessageID true "s1" "bob" "m1" "inbox";
                  mkMessage mkMessageID true "s2" "bob" "m2" "inbox"]) [];
       StartServer ["s0"; "s1"; "s2"] 1; StartServer ["s0"; "s1"; "s2"] 2] 0
    = Ret (c', 2%nat) ∧
    handoffMessages ∘ node_db <$> c'
    = [[mkMessage mkMessageID true "s1" "bob" "m1" "inbox";
        mkMessage mkMessageID true "s2" "bob" "m2" "inbox"]; []; []] ∧
    length ∘ node_store <$> c' = [0; 1; 0]%nat.
Proof.
  destruct (handoffPass_unacknowledged (scripted [ReplyLost; Dropped]) 0
      [mkNode (mkMMDatabase 0 ["s0"; "s1"; "s2"] 3 3
                 [mkMessage mkMessageID true "s1" "bob" "m1" "inbox";
                  mkMessage mkMessageID true "s2" "bob" "m2" "inbox"]) [];
       StartServer ["s0"; "s1"; "s2"] 1; StartServer ["s0"; "s1"; "s2"] 2] 0 _
      eq_refl) as (c' & Hpass & _ & _); [done | |].
  { intros j Hj. simpl in Hj. destruct j as [|[|j]]; [done | done | lia]. }
  exists c'. split; [exact Hpass|].
  vm_compute in Hpass. injection Hpass as <-. split; reflexivity.
Defined.

Lemma call_delivered c srv args d nd :
  findNode srv c = Some d →
  c !! d = Some nd →
  call c Delivered srv args
  = (<[d := fst (ReplicaPut nd args)]> c, true, mkReplicaPutReply OK).
Proof. intros Hfind Hd. unfold call. by rewrite Hfind, Hd. Qed.

(** The inner loop on a queue whose first hint is delivered at once. *)
Lemma handoffRange_head_delivered net self c calls n h rest d nd :
  c !! self = Some n →
  handoffMessages (node_db n) = h :: rest →
  net calls = Delivered →
  findNode (handoffDestination h) c = Some d →
  c !! d = Some nd →
  ∃ c' nd' n',
    handoffRange net self 0 (h :: rest) c calls = Ret (c', S calls) ∧
    storesGrow c c' ∧
    c' !! d = Some nd' ∧
    node_store nd' = node_store nd ++ [(handoffUsername h, set_isHandoff false h)] ∧
    c' !! self = Some n' ∧
    removeMessage (h :: rest) 0 = Ret (handoffMessages (node_db n')).
Proof.
  intros Hself Hq Hnet Hfind Hd. cbn [handoffRange].
  rewrite Hnet, (call_delivered _ _ _ _ _ Hfind Hd).
  change (true && String.eqb (ReplyErr (mkReplicaPutReply OK)) OK) with true.
  cbv iota.
  set (c1 := <[d := fst (ReplicaPut nd (mkReplicaPutArgs (handoffUsername h) h true))]> c).
  assert (Hquiet : clusterGrows (fun _ => True) (fun _ => False) c c1).
  { apply clusterGrows_insert with nd; [done|]. by apply ReplicaPut_grows. }
  destruct (quiet_lookup _ _ _ _ Hquiet Hself) as (n1 & Hself1 & Hq1).
  destruct (removeMessage_in_bounds_Ret (h :: rest) 0) as [queue' Hrm].
  { unfold len. simpl. lia. }
  rewrite Hself1, Hq1, Hq, Hrm.
  assert (Hd1 : c1 !! d = Some (fst (ReplicaPut nd
                  (mkReplicaPutArgs (handoffUsername h) h true)))).
  { apply list_lookup_insert_eq. by eapply lookup_lt_Some. }
  assert (Hlt : (self < length c1)%nat) by (by eapply lookup_lt_Some).
  assert (Hstore : ∃ nd', <[self := set_handoffMessages queue' n1]> c1 !! d = Some nd' ∧
             node_store nd' = node_store nd ++ [(handoffUsername h, set_isHandoff false h)]).
  { destruct (decide (d = self)) as [->|Hne].
    - rewrite list_lookup_insert_eq by done. eexists. split; [done|].
      simpl. rewrite Hself1 in Hd1. by injection Hd1 as ->.
    - rewrite list_lookup_insert_ne by done. eexists. by split. }
  destruct Hstore as (nd' & Hnd' & Hstore).
  exists (<[self := set_handoffMessages queue' n1]> c1), nd', (set_handoffMessages queue' n1).
  split; [done|]. split.
  { eapply storesGrow_trans; [by eapply clusterGrows_storesGrow|].
    by apply storesGrow_insert with n1. }
  split; [done|]. split; [done|].
  split; [by apply list_lookup_insert_eq | done].
Qed.

(** When the RPC for the first hint of the queue is delivered, the pass
    ends there: the node that listens on the hint's destination has
    stored the message under the hint's username with the [isHandoff]
    flag cleared, and the hint is gone from the queue, whose other hints
    all remain. *)
Theorem handoffPass_delivers_head (net : nat → Outcome) (self : nat) (c : list Node)
    (calls : nat) (n : Node) (h : Message) (rest : list Message) (d : nat)
    (nd : Node) :
  c !! self = Some n →
  handoffMessages (node_db n) = h :: rest →
  net calls = Delivered →
  findNode (handoffDestination h) c = Some d →
  c !! d = Some nd →
  ∃ c' nd' n',
    handoffPass net self c calls = Ret (c', S calls) ∧
    c' !! d = Some nd' ∧
    node_store nd' = node_store nd ++ [(handoffUsername h, set_isHandoff false h)] ∧
    c' !! self = Some n' ∧
    handoffMessages (node_db n') ≡ₚ rest.
Proof.
  intros Hself Hq Hnet Hfind Hd.
  destruct (handoffRange_head_delivered net self c calls n h rest d nd
              Hself Hq Hnet Hfind Hd)
    as (c' & nd' & n' & Hrange & _ & Hd' & Hstore & Hself' & Hrm).
  exists c', nd', n'. unfold handoffPass. rewrite Hself, Hq.
  split; [done|]. split; [done|]. split; [done|]. split; [done|].
  apply (removeMessage_Permutation (h :: rest) _ 0) in Hrm; [done|].
  unfold len. simpl. lia.
Qed.

Lemma handoffPass_delivers_head_witness :
  ∃ c' nd' n',
    handoffPass (scripted [Delivered]) 0
      [mkNode (mkMMDatabase 0 ["s0"; "s1"; "s2"] 3 3
                 [mkMessage mkMessageID true "s1" "bob" "m1" "inbox";
                  mkMessage mkMessageID true "s2" "bob" "m2" "inbox"]) [];
       StartServer ["s0"; "s1"; "s2"] 1; StartServer ["s0"; "s1"; "s2"] 2] 0
    = Ret (c', 1%nat) ∧
    c' !! 1%nat = Some nd' ∧
    node_store nd' = [("bob"%string, mkMessage mkMessageID false "s1" "bob" "m1" "inbox")] ∧
    c' !! 0%nat = Some n' ∧
    handoffMessages (node_db n') ≡ₚ [mkMessage mkMessageID true "s2" "bob" "m2" "inbox"].
Proof.
  apply (handoffPass_delivers_head (scripted [Delivered]) 0
      [mkNode (mkMMDatabase 0 ["s0"; "s1"; "s2"] 3 3
                 [mkMessage mkMessageID true "s1" "bob" "m1" "inbox";
                  mkMessage mkMessageID true "s2" "bob" "m2" "inbox"]) [];
       StartServer ["s0"; "s1"; "s2"] 1; StartServer ["s0"; "s1"; "s2"] 2] 0 _
      (mkMessage mkMessageID true "s1" "bob" "m1" "inbox")
      [mkMessage mkMessageID true "s2" "bob" "m2" "inbox"] 1
      (StartServer ["s0"; "s1"; "s2"] 1) eq_refl eq_refl eq_refl eq_refl eq_refl).
Defined.

Lemma storesGrow_lookup c c' k m :
  storesGrow c c' → c !! k = Some m →
  ∃ m', c' !! k = Some m' ∧ node_store m `prefix_of` node_store m'.
Proof.
  intros Hg Hk. destruct (Forall2_lookup_l _ _ _ _ _ Hg Hk) as (m' & Hk' & _ & Hs).
  by exists m'.
Qed.

(** On a network that delivers every RPC, and with every queued hint
    addressed to a node of the cluster, the drainer empties the queue in
    as many passes as there are hints, with one RPC per hint, and every
    hint's destination then holds the message, under the hint's username
    and with the [isHandoff] flag cleared.  Further passes change
    nothing. *)
Theorem runHandoffLoop_drains (passes : nat) (net : nat → Outcome) (self : nat) :
  ∀ (c : list Node) (calls : nat) (n : Node),
  (∀ k, net k = Delivered) →
  c !! self = Some n →
  Forall (fun h => is_Some (findNode (handoffDestination h) c))
    (handoffMessages (node_db n)) →
  (length (handoffMessages (node_db n)) ≤ passes)%nat →
  ∃ c' n',
    runHandoffLoop passes net self c calls
    = Ret (c', (calls + length (handoffMessages (node_db n)))%nat) ∧
    storesGrow c c' ∧
    c' !! self = Some n' ∧
    handoffMessages (node_db n') = [] ∧
    ∀ h, h ∈ handoffMessages (node_db n) →
      ∃ d nd', findNode (handoffDestination h) c = Some d ∧
               c' !! d = Some nd' ∧
               (handoffUsername h, set_isHandoff false h) ∈ node_store nd'.
Proof.
  induction passes as [|passes IH]; intros c calls n Hnet Hself Hdest Hlen.
  - destruct (handoffMessages (node_db n)) as [|h rest] eqn:Hq; [|simpl in Hlen; lia].
    exists c, n. simpl. rewrite Nat.add_0_r.
    split; [done|]. split; [apply storesGrow_refl|]. split; [done|].
    split; [done|]. intros h Hh. by apply elem_of_nil in Hh.
  - destruct (handoffMessages (node_db n)) as [|h rest] eqn:Hq.
    + destruct (IH c calls n Hnet Hself) as (c' & n' & Hloop & Hrest);
        [by rewrite Hq | rewrite Hq; simpl; lia|].
      exists c', n'. rewrite Hq in Hloop, Hrest. split; [|done].
      cbn [runHandoffLoop]. unfold handoffPass. rewrite Hself, Hq. done.
    + apply Forall_cons in Hdest as [[d Hfind] Hdest].
      destruct (findNode_lookup _ _ _ Hfind) as [nd Hd].
      destruct (handoffRange_head_delivered net self c calls n h rest d nd
                  Hself Hq (Hnet calls) Hfind Hd)
        as (c1 & nd1 & n1 & Hrange & Hg1 & Hd1 & Hstore & Hself1 & Hrm).
      apply (removeMessage_Permutation (h :: rest) _ 0) in Hrm;
        [|unfold len; simpl; lia].
      simpl in Hrm.
      destruct (IH c1 (S calls) n1 Hnet Hself1) as (c' & n' & Hloop & Hg & Hself' & Hq' & Hdel).
      { rewrite Hrm. eapply Forall_impl; [exact Hdest|].
        intros h' Hh'. simpl in Hh'. by rewrite (findNode_storesGrow _ _ _ Hg1). }
      { rewrite Hrm. simpl in Hlen. lia. }
      exists c', n'. split.
      { cbn [runHandoffLoop]. unfold handoffPass. rewrite Hself, Hq, Hrange.
        simpl. rewrite Hloop. f_equal. f_equal.
        rewrite (Permutation_length Hrm). lia. }
      split; [by eapply storesGrow_trans|]. split; [done|]. split; [done|].
      intros h' Hh'. apply elem_of_cons in Hh' as [->|Hh'].
      * destruct (storesGrow_lookup _ _ _ _ Hg Hd1) as (nd' & Hd' & Hpre).
        exists d, nd'. split; [done|]. split; [done|].
        eapply elem_of_prefix; [|exact Hpre].
        rewrite Hstore. apply elem_of_app. right. by apply list_elem_of_singleton.
      * destruct (Hdel h') as (d' & nd' & Hfind' & Hd' & Hin); [by rewrite Hrm|].
        exists d', nd'. split; [|done].
        by rewrite <- (findNode_storesGrow _ _ _ Hg1).
Qed.

Lemma runHandoffLoop_drains_witness :
  ∃ c' n',
    runHandoffLoop 3 (fun _ => Delivered) 0
      [mkNode (mkMMDatabase 0 ["s0"; "s1"; "s2"] 3 3
                 [mkMessage mkMessageID true "s1" "bob" "m1" "inbox";
                  mkMessage mkMessageID true "s2" "bob" "m2" "inbox"]) [];
       StartServer ["s0"; "s1"; "s2"] 1; StartServer ["s0"; "s1"; "s2"] 2] 0
    = Ret (c', 2%nat) ∧
    c' !! 0%nat = Some n' ∧
    handoffMessages (node_db n') = [] ∧
    node_store <$> c'
    = [[];
       [("bob"%string, mkMessage mkMessageID false "s1" "bob" "m1" "inbox")];
       [("bob"%string, mkMessage mkMessageID false "s2" "bob" "m2" "inbox")]].
Proof.
  destruct (runHandoffLoop_drains 3 (fun _ => Delivered) 0
      [mkNode (mkMMDatabase 0 ["s0"; "s1"; "s2"] 3 3
                 [mkMessage mkMessageID true "s1" "bob" "m1" "inbox";
                  mkMessage mkMessageID true "s2" "bob" "m2" "inbox"]) [];
       StartServer ["s0"; "s1"; "s2"] 1; StartServer ["s0"; "s1"; "s2"] 2] 0 _
      (fun _ => eq_refl) eq_refl) as (c' & n' & Hloop & _ & Hself & Hq & _).
  { repeat constructor; by eexists. }
  { simpl. lia. }
  exists c', n'. split; [exact Hloop|]. split; [exact Hself|]. split; [exact Hq|].
  vm_compute in Hloop. by injection Hloop as <-.
Defined.

(** ** Coordinator: the replication factor for coordinator index 0 *)

Lemma findNode_Some_intro srv : ∀ c k nk,
  c !! k = Some nk →
  listensOn srv nk = true →
  (∀ j nj, (j < k)%nat → c !! j = Some nj → listensOn srv nj = false) →
  findNode srv c = Some k.
Proof.
  induction c as [|m c IH]; intros k nk Hk Hon Hbefore; [done|].
  destruct k as [|k]; simpl in *.
  - injection Hk as ->. by rewrite Hon.
  - rewrite (Hbefore O m) by (done || lia).
    rewrite (IH k nk); [done..|].
    intros j nj Hj Hnj. apply (Hbefore (S j)); [lia | done].
Qed.

Lemma wfCluster_listensOn srv c k node a :
  wfCluster srv c → c !! k = Some node →
  listensOn a node = true ↔ srv !! k = Some a.
Proof.
  intros [Hlen Hwf] Hk. destruct (Hwf k node Hk) as [Hme Hsrv].
  unfold listensOn. rewrite Hme, Hsrv.
  destruct (lookup_lt_is_Some_2 srv k) as [b Hb].
  { rewrite <- Hlen. by eapply lookup_lt_Some. }
  rewrite (index_lookup _ _ _ Hb), Hb. rewrite String.eqb_eq.
  split; [by intros -> | by intros [= ->]].
Qed.

Lemma findNode_wf srv c k a :
  wfCluster srv c → NoDup srv → srv !! k = Some a → findNode a c = Some k.
Proof.
  intros Hwf Hnd Ha.
  destruct (lookup_lt_is_Some_2 c k) as [nk Hk].
  { destruct Hwf as [-> _]. by eapply lookup_lt_Some. }
  apply findNode_Some_intro with nk; [done| |].
  - by apply (wfCluster_listensOn srv c k).
  - intros j nj Hj Hnj. destruct (listensOn a nj) eqn:Hon; [|done].
    apply (wfCluster_listensOn srv c j) in Hon; [|done..].
    pose proof (NoDup_lookup _ _ _ _ Hnd Hon Ha). lia.
Qed.

Lemma startCluster_wf srv : wfCluster srv (startCluster srv).
Proof.
  unfold startCluster. split; [by rewrite length_imap|].
  intros k node Hk. rewrite list_lookup_imap in Hk.
  destruct (srv !! k); [|done]. simpl in Hk. by injection Hk as <-.
Qed.

Lemma holdsCopy_storesGrow username msg c c' k node :
  storesGrow c c' → c !! k = Some node → holdsCopy username msg node →
  ∃ node', c' !! k = Some node' ∧ holdsCopy username msg node'.
Proof.
  intros Hg Hk (m & Hin & Hm).
  destruct (storesGrow_lookup _ _ _ _ Hg Hk) as (node' & Hk' & Hpre).
  exists node'. split; [done|]. exists m. split; [|done].
  by eapply elem_of_prefix.
Qed.

(** For a username whose coordinator index is 0 the positions of the
    coordinator list are the node indices, and the replication factor is
    met: in a cluster as [StartServer] builds it, over a duplicate-free
    server list, a [CoordinatorPut] that returns [OK] leaves at least
    [nReplicas] distinct nodes whose Local Store holds a copy of the
    message under the username. *)
Theorem CoordinatorPut_replicas_first_server (fuel : nat) (net : nat → Outcome)
    (srv : list string) (c : list Node) (self : nat) (n : Node) (username : string)
    (rid : RequestID) (msg : Message) (c' : list Node) (k : nat) :
  wfCluster srv c →
  NoDup srv →
  0 < len srv < 2 ^ 32 →
  c !! self = Some n →
  nServers (node_db n) = len srv →
  - 2 ^ 63 < nReplicas (node_db n) < 2 ^ 63 →
  getCoordinatorIndex (node_db n) username = Ret 0 →
  CoordinatorPut fuel net c self username rid msg = Ret (OK, c', k) →
  ∃ held : gset Z,
    nReplicas (node_db n) ≤ Z.of_nat (size held) ∧
    ∀ i, i ∈ held →
      0 ≤ i < len srv ∧
      ∃ node, c' !! Z.to_nat i = Some node ∧ holdsCopy username msg node.
Proof.
  intros Hwf Hnd Hsrv Hself Hn Hr Hfirst Hput.
  destruct (proj2 Hwf self n Hself) as [Hme Hservers].
  assert (Hselflt : (self < length srv)%nat).
  { destruct Hwf as [<- _]. by eapply lookup_lt_Some. }
  assert (Hn' : 0 < nServers (node_db n) < 2 ^ 32) by (by rewrite Hn).
  assert (Hlist : GetCoordinatorList (node_db n) username = Ret srv).
  { rewrite GetCoordinatorList_spec by (by rewrite ?Hservers).
    rewrite getCoordinatorIndex_spec in Hfirst by done.
    injection Hfirst as ->. simpl. by rewrite app_nil_r, Hservers. }
  destruct (CoordinatorPut_Ret _ _ _ _ _ _ _ _ _ _ Hput)
    as (n0 & Hself0 & [(? & _)|Hrs]); [done|].
  assert (n0 = n) as -> by congruence.
  destruct (replicateAndStore_Ret _ _ _ _ _ _ _ _ _ _ Hrs)
    as (s & ns & Hloop & Hns & _ & -> & _).
  pose proof (replicateLoop_exit _ _ _ _ _ _ _ Hloop) as Hexit.
  rewrite int_add_small in Hexit by lia.
  set (Inv := fun s : PutState =>
    storesGrow c (cluster s) ∧
    sameContent msg (message s) ∧
    - 2 ^ 63 ≤ totalReplicas s ≤ Z.of_nat (size (replicaLocations s)) ∧
    ∀ i v, replicaLocations s !! i = Some v →
      v = true ∧ 0 ≤ i < len srv ∧ i ≠ me (node_db n) ∧
      ∃ node, cluster s !! Z.to_nat i = Some node ∧ holdsCopy username msg node).
  assert (Hinv : Inv s).
  { apply (replicateLoop_inv fuel net (node_db n) username Inv
             (fun i server => 0 ≤ i < len srv ∧ srv !! Z.to_nat i = Some server))
      with fuel (mkPutState msg 0 ∅ ∅ c O); [| | |done].
    - intros i server s0 s1 [Hi Hserver] Hfree Hnotme (Hg & Hc & Htotal & Hheld) Hsend.
      destruct (sendToCandidate_Ret _ _ _ _ _ _ _ _ Hsend)
        as (target & m & targets & c1 & ok & reply & _ & Hset & Hcall & ->).
      destruct (setHintedHandoff_Ret _ _ _ _ _ _ _ _ Hset) as (Hm & _ & _).
      assert (Hc1 : sameContent msg m) by (by eapply sameContent_trans).
      assert (Hstep : storesGrow (cluster s0) c1).
      { eapply (clusterGrows_storesGrow (fun _ => True) (fun _ => True)).
        eapply call_grows; [| |done]; done. }
      assert (Hg1 : storesGrow c c1) by (by eapply storesGrow_trans).
      assert (Hnone : replicaLocations s0 !! i = None).
      { destruct (replicaLocations s0 !! i) as [v|] eqn:Hv; [|done].
        destruct (Hheld i v Hv) as [-> _]. unfold marked in Hfree.
        by rewrite Hv in Hfree. }
      assert (Hkeep : ∀ i' v, replicaLocations s0 !! i' = Some v →
                v = true ∧ 0 ≤ i' < len srv ∧ i' ≠ me (node_db n) ∧
                ∃ node, c1 !! Z.to_nat i' = Some node ∧ holdsCopy username msg node).
      { intros i' v Hv. destruct (Hheld i' v Hv) as (Hv' & Hi' & Hme' & node & Hnode & Hholds).
        split; [done|]. split; [done|]. split; [done|].
        eapply holdsCopy_storesGrow; [exact Hstep | done | done]. }
      destruct (ok && String.eqb (ReplyErr reply) OK) eqn:Hok.
      + apply andb_true_iff in Hok as [-> _].
        destruct (call_cases _ _ _ _ _ _ _ Hcall)
          as [[_ ?]|(j & nj & Hfind & Hj & -> & _)]; [done|].
        rewrite (findNode_storesGrow _ _ _ Hg) in Hfind.
        rewrite (findNode_wf srv c (Z.to_nat i) server Hwf Hnd Hserver) in Hfind.
        injection Hfind as <-.
        split; [done|]. split; [done|]. cbn [totalReplicas replicaLocations cluster].
        split.
        { rewrite map_size_insert_None by done. unfold int_add.
          pose proof (wrap64_bounds (totalReplicas s0 + 1)).
          pose proof (wrap64_le (totalReplicas s0 + 1) ltac:(lia)). lia. }
        intros i' v Hv. rewrite lookup_insert in Hv.
        destruct (decide (i = i')) as [<-|Hne].
        * injection Hv as <-. split; [done|]. split; [done|]. split; [done|].
          eexists. split.
          { apply list_lookup_insert_eq. by eapply lookup_lt_Some. }
          exists m. split; [|done]. unfold ReplicaPut. simpl.
          destruct (isHandoff m); simpl; apply elem_of_app; right;
            by apply list_elem_of_singleton.
        * by apply Hkeep.
      + split; [done|]. split; [done|]. split; [done|]. done.
    - intros list Hlist' j server Hj. rewrite Hlist in Hlist'. injection Hlist' as <-.
      pose proof (lookup_lt_Some _ _ _ Hj) as Hjlt. unfold len in *.
      rewrite iter_int_add by lia. rewrite Nat2Z.id. split; [lia | done].
    - split; [apply storesGrow_refl|]. split; [done|]. split; [done|].
      intros i v Hv. cbn [replicaLocations] in Hv. by rewrite lookup_empty in Hv. }
  destruct Hinv as (Hg & Hc & Htotal & Hheld).
  set (cfinal := <[self := fst (LocalPut ns username (message s))]> (cluster s)).
  assert (Hgfinal : storesGrow (cluster s) cfinal).
  { apply storesGrow_insert with ns; [done | done |]. simpl. by apply prefix_app_r. }
  exists (dom (replicaLocations s) ∪ {[ me (node_db n) ]}).
  split.
  - rewrite size_union.
    + rewrite size_dom, size_singleton. lia.
    + apply disjoint_singleton_r. intros Hin. apply elem_of_dom in Hin as [v Hv].
      by destruct (Hheld _ v Hv) as (_ & _ & ? & _).
  - intros i Hi. apply elem_of_union in Hi as [Hi|Hi].
    + apply elem_of_dom in Hi as [v Hv].
      destruct (Hheld _ v Hv) as (_ & Hrange & _ & node & Hnode & Hholds).
      split; [done|]. eapply holdsCopy_storesGrow; [exact Hgfinal | done | done].
    + apply elem_of_singleton in Hi as ->. rewrite Hme. unfold len.
      split; [lia|]. rewrite Nat2Z.id. eexists. split.
      { apply list_lookup_insert_eq. by eapply lookup_lt_Some. }
      exists (message s). split; [|done]. simpl. apply elem_of_app. right.
      by apply list_elem_of_singleton.
Qed.

Lemma CoordinatorPut_replicas_first_server_witness :
  ∃ c' k (held : gset Z),
    CoordinatorPut 5 (scripted [Dropped; Dropped; Dropped; Delivered; Delivered])
      (startCluster servers5) 0 "a" (mkRequestID 7 1) hello = Ret (OK, c', k) ∧
    3 ≤ Z.of_nat (size held) ∧
    ∀ i, i ∈ held →
      0 ≤ i < 5 ∧ ∃ node, c' !! Z.to_nat i = Some node ∧ holdsCopy "a" hello node.
Proof.
  assert (Hnd : NoDup servers5).
  { apply (bool_decide_unpack _). vm_compute. exact I. }
  assert (Hsrv : 0 < len servers5 < 2 ^ 32) by (split; reflexivity).
  assert (Hr : - 2 ^ 63 < nReplicas (node_db (StartServer servers5 0)) < 2 ^ 63).
  { split; reflexivity. }
  assert (Hfirst : getCoordinatorIndex (node_db (StartServer servers5 0)) "a" = Ret 0).
  { vm_compute. reflexivity. }
  assert (Hput : ∃ c' k, CoordinatorPut 5
                   (scripted [Dropped; Dropped; Dropped; Delivered; Delivered])
                   (startCluster servers5) 0 "a" (mkRequestID 7 1) hello
                 = Ret (OK, c', k)).
  { eexists _, _. vm_compute. reflexivity. }
  destruct Hput as (c' & k & Hput).
  destruct (CoordinatorPut_replicas_first_server 5
              (scripted [Dropped; Dropped; Dropped; Delivered; Delivered])
              servers5 (startCluster servers5) 0 (StartServer servers5 0) "a"
              (mkRequestID 7 1) hello c' k (startCluster_wf servers5) Hnd Hsrv
              eq_refl eq_refl Hr Hfirst Hput)
    as (held & Hsize & Hall).
  exists c', k, held. split; [exact Hput|]. split; [exact Hsize | exact Hall].
Defined.

(** The two equivalences above, used at concrete inputs. *)
Lemma removeMessage_Panic_iff_witness :
  removeMessage ([] : list Message) 0 = Panic ∧
  removeMessage [hello] 1 = Panic.
Proof.
  split.
  - apply (proj2 (removeMessage_Panic_iff ([] : list Message) 0)). right. reflexivity.
  - apply (proj2 (removeMessage_Panic_iff [hello] 1)). right. reflexivity.
Defined.

Lemma sameID_eq_witness :
  sameID (mkRequestID 7 1) (mkRequestID 7 1) = true ∧
  mkRequestID 7 1 ≠ mkRequestID 7 2.
Proof.
  split.
  - apply (proj2 (sameID_eq (mkRequestID 7 1) (mkRequestID 7 1))). reflexivity.
  - intros Heq. apply (proj2 (sameID_eq (mkRequestID 7 1) (mkRequestID 7 2))) in Heq.
    discriminate Heq.
Defined.
